(** * Rainbow-colored sidebar: a shallow embedding of [src/main.ts]

    The plugin paints the folders of the file explorer by adding
    [rcs-item-k] classes to existing tree nodes, publishes the colours of
    the chosen scheme as CSS variables on the document root, and re-runs
    the folder pass, debounced, whenever the tree changes.

    Part I gives the model: JavaScript strings and the one call of
    [Number], the DOM as a table of elements in document order, the
    settings object, and the functions of [main.ts] under their own
    names.  Part II states and proves the properties.

    Conventions of the model.
    - A string is a [string] of the standard library, one [ascii] per
      UTF-16 code unit; code units above 255 are outside the model.
    - [document.querySelector('[data-path="p"]')] is read as the attribute
      test it denotes for a path [p] that can stand between the quotes
      of a selector ([selector_safe]: no quote, backslash, line break
      or NUL in it): the first element, in document order, whose
      [data-path] attribute is exactly [p].  With another path the
      selector is a different one or none, and the call may throw; a
      theorem that says which class a folder gets has the paths queried
      up to there [selector_safe] as a hypothesis.
    - A run of an [async] function is taken as a whole: what the host
      does to the document while the run awaits the vault adapter is
      not modelled.
    - What the host provides and [main.ts] only calls (the collation
      behind [localeCompare], the text of a number that is not an
      integer, the CSS value parser, the vault adapter, the table of
      [./color-schemes]) is a parameter of the model. *)

From Stdlib Require Import ZArith Ascii String.
From stdpp Require Import base tactics option list strings gmap sorting pretty.

#[local] Set Warnings "-register-all".

(* ===================================================================== *)
(** * Part I: the model                                                    *)
(* ===================================================================== *)

(** ** JavaScript strings and numbers *)

Module Js.

(** [s.startsWith(p)] *)
Fixpoint startsWith (s p : string) : bool :=
  match p, s with
  | EmptyString, _ => true
  | String _ _, EmptyString => false
  | String a p', String b s' => if Ascii.eqb a b then startsWith s' p' else false
  end.

(** [s.includes(p)] *)
Fixpoint includes (s p : string) : bool :=
  startsWith s p ||
  match s with
  | EmptyString => false
  | String _ s' => includes s' p
  end.

(** [s.split(sep)[0]] for a one-character separator: the text before the
    first separator, the whole string when there is none. *)
Fixpoint split_head (sep : ascii) (s : string) : string :=
  match s with
  | EmptyString => EmptyString
  | String c s' => if Ascii.eqb c sep then EmptyString else String c (split_head sep s')
  end.

(** [s[s.length - 1]]; [None] stands for [undefined] (the empty string). *)
Fixpoint last_char (s : string) : option ascii :=
  match s with
  | EmptyString => None
  | String c EmptyString => Some c
  | String _ s' => last_char s'
  end.

(** A string used as a condition: the empty string is falsy. *)
Definition truthy (s : string) : bool :=
  match s with
  | EmptyString => false
  | String _ _ => true
  end.

(** The values [Number] can return on a two-character text that ends in
    the digit 1: an integer, [NaN], or the double 0.1 (for [".1"]). *)
Inductive jsnum :=
  | JInt (z : Z)
  | JNaN
  | JPointOne.

(** The value of a decimal digit. *)
Definition digit_value (c : ascii) : option Z := Z.of_nat <$> Ascii.is_nat c.

(** White space that [Number] trims, among the code units below 256:
    TAB, LF, VT, FF, CR, SPACE and NBSP. *)
Definition is_str_whitespace (c : ascii) : bool :=
  match c with
  | "009" | "010" | "011" | "012" | "013" | " " | "160" => true
  | _ => false
  end%char.

(** [Number(c + 1)] for a character [c]: the operand of [+] is a string,
    so [+ 1] appends the character 1 and [Number] parses the two
    characters.  [Number(undefined + 1)] is [NaN]. *)
Definition Number_plus_1 (c : option ascii) : jsnum :=
  match c with
  | None => JNaN
  | Some c =>
      match digit_value c with
      | Some d => JInt (10 * d + 1)
      | None =>
          if Ascii.eqb c "+" then JInt 1
          else if Ascii.eqb c "-" then JInt (-1)
          else if Ascii.eqb c "." then JPointOne
          else if is_str_whitespace c then JInt 1
          else JNaN
      end
  end.

End Js.

(** ** The DOM *)

Module Dom.

(** An element of the document.  [parentElement] is the position of the
    parent in the document, [None] for an element without one; the
    [class] attribute is kept apart from the other attributes, as the
    token list [classList] reads and writes it; [style] holds the
    properties of the inline style declaration. *)
Record element := Element {
  parentElement : option nat;
  attributes : gmap string string;
  classList : list string;
  style : gmap string string
}.

(** A document: its elements in tree order. *)
Abbreviation document := (list element).

Definition with_classList (f : list string → list string) (e : element) : element :=
  Element (parentElement e) (attributes e) (f (classList e)) (style e).

Definition with_attributes (f : gmap string string → gmap string string)
    (e : element) : element :=
  Element (parentElement e) (f (attributes e)) (classList e) (style e).

Definition with_style (f : gmap string string → gmap string string)
    (e : element) : element :=
  Element (parentElement e) (attributes e) (classList e) (f (style e)).

(** [classList.add(token)]: a token list holds each token once. *)
Definition token_add (token : string) (tokens : list string) : list string :=
  if decide (token ∈ tokens) then tokens else tokens ++ [token].

Definition classList_add (token : string) : element → element :=
  with_classList (token_add token).

(** [setAttribute(name, value)] and [removeAttribute(name)] *)
Definition setAttribute (name value : string) : element → element :=
  with_attributes (insert name value).

Definition removeAttribute (name : string) : element → element :=
  with_attributes (delete name).

Definition hasAttribute (name : string) (e : element) : bool :=
  bool_decide (is_Some (attributes e !! name)).

(** The code writes the path between the quotes of the selector
    [[data-path="..."]].  A code unit stands there for itself unless
    it ends or changes a CSS string: NUL, line feed, form feed,
    carriage return, the quotation mark and the backslash. *)
Definition selector_char (c : ascii) : bool :=
  negb (bool_decide (nat_of_ascii c ∈ [0; 10; 12; 13; 34; 92])).

(** The selector made from [path] is the test for the attribute value
    [path]. *)
Fixpoint selector_safe (path : string) : bool :=
  match path with
  | EmptyString => true
  | String c rest => selector_char c && selector_safe rest
  end.

(** [document.querySelector('[data-path="path"]')] for a path that is
    [selector_safe]: the position of the first element whose
    [data-path] attribute is [path]. *)
Definition querySelector_data_path (d : document) (path : string) : option nat :=
  fst <$> list_find (λ e, attributes e !! "data-path" = Some path) d.

(** [d[n]?.parentElement]: the parent of the element at [n], with its
    position; [None] when there is none. *)
Definition parentElement_of (d : document) (n : nat) : option (nat * element) :=
  p ← d !! n ≫= parentElement;
  e ← d !! p;
  Some (p, e).

(** [document.querySelector('[data-path="path"]')?.parentElement] *)
Definition parent_of_data_path (d : document) (path : string) : option (nat * element) :=
  querySelector_data_path d path ≫= parentElement_of d.

(** [document.querySelector('[data-path="path"]')?.parentElement?.classList.add(token)] *)
Definition add_class_to_parent (path token : string) (d : document) : document :=
  match parent_of_data_path d path with
  | Some (p, _) => alter (classList_add token) p d
  | None => d
  end.

(** [e'] is [e] with tokens that satisfy [P] added at the end of its
    class list, and nothing else changed. *)
Definition annotates (P : string → Prop) (e e' : element) : Prop :=
  parentElement e' = parentElement e ∧
  attributes e' = attributes e ∧
  style e' = style e ∧
  ∃ added, classList e' = classList e ++ added ∧ Forall P added.

(** [d'] has the elements of [d], position by position, each annotated. *)
Definition annotated (P : string → Prop) (d d' : document) : Prop :=
  Forall2 (annotates P) d d'.

End Dom.

(** ** Settings *)

Module Settings.

(** [interface RainbowColoredSidebarSettings] *)
Record RainbowColoredSidebarSettings := {
  scheme : string;
  increaseContrast : bool;
  folderList : list string
}.

Definition DEFAULT_SETTINGS : RainbowColoredSidebarSettings := {|
  scheme := "csDefault";
  increaseContrast := false;
  folderList := []
|}.

(** What [loadData] can resolve to: a value read from the plugin's JSON
    data file.  A number is kept as its literal; [loadSettings] never
    looks at it. *)
Inductive json :=
  | JNull
  | JBool (b : bool)
  | JNumber (literal : string)
  | JString (s : string)
  | JArray (items : list json)
  | JObject (members : list (string * json)).

(** A plain object: its own properties. *)
Abbreviation object := (gmap string json).

(** A settings record as the object literal that denotes it. *)
Definition settings_members (s : RainbowColoredSidebarSettings) : list (string * json) :=
  [ ("scheme", JString (scheme s));
    ("increaseContrast", JBool (increaseContrast s));
    ("folderList", JArray (JString <$> folderList s)) ].

Definition settings_object (s : RainbowColoredSidebarSettings) : object :=
  list_to_map (settings_members s).

Fixpoint chars (s : string) : list string :=
  match s with
  | EmptyString => []
  | String c s' => String c EmptyString :: chars s'
  end.

(** The own enumerable properties [Object.assign] copies from a source:
    the members of an object, the indices of an array or of a string,
    nothing for a boolean or a number. *)
Definition own_properties (v : json) : list (string * json) :=
  match v with
  | JObject members => members
  | JArray items => imap (λ i x, (pretty i, x)) items
  | JString s => imap (λ i c, (pretty i, JString c)) (chars s)
  | JNull | JBool _ | JNumber _ => []
  end.

(** [target[key] = value] on an object whose prototype is
    [Object.prototype]: the key [__proto__] reaches the inherited setter
    and creates no own property. *)
Definition object_set (target : object) (kv : string * json) : object :=
  if decide (kv.1 = "__proto__") then target else <[kv.1 := kv.2]> target.

(** One source of [Object.assign]; [None] is [undefined].  [null] and
    [undefined] sources are skipped. *)
Definition assign_source (target : object) (source : option json) : object :=
  match source with
  | None | Some JNull => target
  | Some v => foldl object_set target (own_properties v)
  end.

(** [Object.assign(target, ...sources)] *)
Definition Object_assign (target : object) (sources : list (option json)) : object :=
  foldl assign_source target sources.

(** The names of the fields the stored data has. *)
Definition stored_fields (stored : option json) : list string :=
  match stored with
  | None | Some JNull => []
  | Some v => (own_properties v).*1
  end.

(** The fields of the interface. *)
Definition setting_keys : list string := ["scheme"; "increaseContrast"; "folderList"].

(** [this.settings = Object.assign({}, DEFAULT_SETTINGS, await this.loadData())]
    where [stored] is what [loadData] resolves to, [None] when nothing
    was ever saved. *)
Definition loadSettings (stored : option json) : object :=
  Object_assign ∅ [Some (JObject (settings_members DEFAULT_SETTINGS)); stored].

End Settings.

(** ** The colour scheme *)

Module ColorScheme.
Import Dom Settings.

(** What [setColorScheme] takes from outside [main.ts]: the table
    [schemes] of the module [./color-schemes], and the CSS parser's
    verdict on a value given to [style.setProperty]. *)
Class Host := {
  schemes : gmap string (list string);
  css_value_ok : string → bool
}.

Section with_host.
Context `{Host}.

(** [style.setProperty(name, value)]: the empty value removes the
    property, a value the parser refuses changes nothing. *)
Definition setProperty (name value : string) : element → element :=
  with_style (λ st,
    if decide (value = "") then delete name st
    else if css_value_ok value then <[name := value]> st
    else st).

(** What one [setProperty] leaves under its name, [old] being what was
    there. *)
Definition property_after (value : string) (old : option string) : option string :=
  if decide (value = "") then None
  else if css_value_ok value then Some value
  else old.

Definition rcs_color (k : nat) : string := "--rcs-color-" +:+ pretty k.

(** [newScheme.forEach((color, index) => root.style.setProperty(`--rcs-color-${index + 1}`, color))],
    from position [index] on. *)
Fixpoint forEach_color (index : nat) (colors : list string) (root : element) : element :=
  match colors with
  | [] => root
  | color :: rest =>
      forEach_color (S index) rest (setProperty (rcs_color (index + 1)) color root)
  end.

(** [setColorScheme], applied to [document.documentElement].  [None] is
    the [TypeError] of calling [forEach] on [undefined], raised before
    anything is changed, when the table has no such scheme. *)
Definition setColorScheme (settings : RainbowColoredSidebarSettings)
    (root : element) : option element :=
  newScheme ← schemes !! scheme settings;
  let root := forEach_color 0 newScheme root in
  Some (if increaseContrast settings
        then setAttribute "data-rcs-a11y" "1" root
        else removeAttribute "data-rcs-a11y" root).

(** The contrast toggle of the settings tab, before it saves. *)
Definition toggle_increaseContrast (settings : RainbowColoredSidebarSettings)
    : RainbowColoredSidebarSettings :=
  {| scheme := scheme settings;
     increaseContrast := negb (increaseContrast settings);
     folderList := folderList settings |}.

End with_host.
End ColorScheme.

(** ** The folder indexer *)

Module FolderStyling.
Import Js Dom Settings.

(** What the indexer takes from the JavaScript engine: the collation
    behind [a.localeCompare(b, undefined, {numeric: true, caseFirst: 'lower'})],
    and the text of a class index that is not an integer,
    [fraction_text j] being that of [((0.1 + 1 + j) % 16) + 1]. *)
Class Host := {
  localeCompare : string → string → comparison;
  fraction_text : nat → string
}.

(** The vault: [adapter_list path] is the [folders] field of what
    [vault.adapter.list(path)] resolves to, [None] when it rejects. *)
Record Vault := {
  adapter_list : string → option (list string);
  configDir : string
}.

(** [`rcs-item-${k}`] for an integer [k] *)
Definition rcs_item (k : Z) : string := "rcs-item-" +:+ pretty k.

(** [(i % 16) + 1] *)
Definition classIndex (i : nat) : Z := (Z.rem (Z.of_nat i) 16 + 1)%Z.

(** [!folder.startsWith('.')] *)
Definition visible (folder : string) : bool := negb (startsWith folder ".").

(** The sixteen tokens [rcs-item-1] to [rcs-item-16]. *)
Definition index_tokens : list string := rcs_item <$> seqZ 1 16.

(** The classes of the plugin. *)
Definition plugin_token (token : string) : Prop :=
  token = "rcs-sub-item" ∨ token ∈ index_tokens.

(** Every class of the document that contains [rcs-item] is one of the
    sixteen tokens: nothing else in the page uses the plugin's prefix. *)
Definition own_rcs_items_only (d : document) : Prop :=
  Forall (λ e, Forall (λ token, includes token "rcs-item" = true → token ∈ index_tokens)
                 (classList e)) d.

Section with_host.
Context `{Host}.

(** [a] may stay before [b]: the comparator is not positive. *)
Definition before (a b : string) : Prop := localeCompare a b ≠ Gt.

#[global] Instance before_dec : RelDecision before.
Proof. intros a b. unfold before. destruct (localeCompare a b); [left..|right]; congruence. Defined.

(** [Array.prototype.sort] with the comparator.  The engine's sort is
    stable, and with a consistent comparator every stable sort returns
    the same array; insertion from the right stands for it: an element
    goes before the first one it may stay before, so before the equal
    elements that came after it. *)
Fixpoint insert_sorted (x : string) (l : list string) : list string :=
  match l with
  | [] => [x]
  | y :: l' => if decide (before x y) then x :: l else y :: insert_sorted x l'
  end.

Definition sort (l : list string) : list string := foldr insert_sorted [] l.

(** The folders of the root listing that are styled, in order. *)
Definition top_folders (listing : list string) : list string :=
  sort (filter (λ folder, visible folder) listing).

(** The loop over the top-level folders, from position [i] on. *)
Fixpoint style_top (i : nat) (folders : list string) (d : document) : document :=
  match folders with
  | [] => d
  | folder :: rest =>
      style_top (S i) rest (add_class_to_parent folder (rcs_item (classIndex i)) d)
  end.

(** [Array.from(parentElement.classList).filter((item) => item.includes('rcs-item'))[0]] *)
Definition parent_rcs_index (tokens : list string) : option string :=
  head (filter (λ item, includes item "rcs-item") tokens).

(** [Number(parent_rcs_index[parent_rcs_index.length-1] + 1)] *)
Definition new_rcs_index (parent_rcs_index : string) : jsnum :=
  Number_plus_1 (last_char parent_rcs_index).

(** [`rcs-item-${((new_rcs_index + 1 + j) % 16) + 1}`] *)
Definition sub_class_token (new_rcs_index : jsnum) (j : nat) : string :=
  match new_rcs_index with
  | JInt n => rcs_item (Z.rem (n + 1 + Z.of_nat j) 16 + 1)
  | JNaN => "rcs-item-NaN"
  | JPointOne => "rcs-item-" +:+ fraction_text j
  end.

(** The loop over the folders of one independent group, from position
    [j] on. *)
Fixpoint style_group (new_rcs_index : jsnum) (j : nat) (ext : list string)
    (d : document) : document :=
  match ext with
  | [] => d
  | folder :: rest =>
      style_group new_rcs_index (S j) rest
        (add_class_to_parent folder "rcs-sub-item"
           (add_class_to_parent folder (sub_class_token new_rcs_index j) d))
  end.

(** The class token the group of [sub_folder] starts from: the first
    token containing [rcs-item] on the parent element of the node whose
    [data-path] is the first segment of [sub_folder]. *)
Definition group_parent_token (d : document) (sub_folder : string) : option string :=
  '(_, parentElement) ← parent_of_data_path d (split_head "/" sub_folder);
  parent_rcs_index (classList parentElement).

(** The folders of the group: the listing without the configuration
    directory. *)
Definition group_folders (v : Vault) (listing : list string) : list string :=
  filter (λ folder, folder ≠ configDir v) listing.

(** The body of the loop over [settings.folderList]; [None] when
    [adapter.list] rejects. *)
Definition style_sub_folder (v : Vault) (sub_folder : string) (d : document)
    : option document :=
  listing ← adapter_list v sub_folder;
  let ext := group_folders v listing in
  Some match group_parent_token d sub_folder with
       | Some parent_rcs_index =>
           if truthy parent_rcs_index
           then style_group (new_rcs_index parent_rcs_index) 0 ext d
           else d
       | None => d
       end.

(** The loop over [settings.folderList].  The second component tells
    whether the loop ran to its end; a rejection leaves the document as
    it was when it happened. *)
Fixpoint style_sub_folders (v : Vault) (sub_folders : list string) (d : document)
    : document * bool :=
  match sub_folders with
  | [] => (d, true)
  | sub_folder :: rest =>
      match style_sub_folder v sub_folder d with
      | Some d' => style_sub_folders v rest d'
      | None => (d, false)
      end
  end.

(** [setFolderStyling]: the document it leaves and whether its promise
    is fulfilled. *)
Definition setFolderStyling (v : Vault) (settings : RainbowColoredSidebarSettings)
    (d : document) : document * bool :=
  match adapter_list v "/" with
  | None => (d, false)
  | Some listing =>
      style_sub_folders v (folderList settings) (style_top 0 (top_folders listing) d)
  end.

End with_host.

(** What the indexer reads off a class token of its own: the token
    contains [rcs-item], is truthy, and gives a natural number. *)
Definition token_reads_well (token : string) : bool :=
  includes token "rcs-item" && truthy token &&
  match new_rcs_index token with
  | JInt n => bool_decide (0 ≤ n)%Z
  | JNaN | JPointOne => false
  end.

End FolderStyling.

(** ** The mutation watcher *)

Module Observer.

(** The part of the plugin and of the event loop the watcher touches.
    [timers] holds the pending [setTimeout] callbacks of the plugin, each
    under its handle with the time it is due; every one of them is
    [async () => { await this.setFolderStyling(); }].  Handles are
    positive and never given twice.  [runs] lists the times at which
    these callbacks ran, oldest first.  Times are in milliseconds. *)
Record state := State {
  now : Z;
  timers : gmap positive Z;
  next_handle : positive;
  mutationTimeout : option positive;
  observing : bool;
  runs : list Z
}.

(** [setTimeout(callback, delay)]: the handle and the new state. *)
Definition setTimeout (delay : Z) (s : state) : positive * state :=
  (next_handle s,
   State (now s) (<[next_handle s := (now s + delay)%Z]> (timers s))
     (next_handle s + 1) (mutationTimeout s) (observing s) (runs s)).

(** [clearTimeout(handle)] *)
Definition clearTimeout (handle : positive) (s : state) : state :=
  State (now s) (delete handle (timers s)) (next_handle s) (mutationTimeout s)
    (observing s) (runs s).

Definition set_mutationTimeout (handle : positive) (s : state) : state :=
  State (now s) (timers s) (next_handle s) (Some handle) (observing s) (runs s).

(** The callback given to [new MutationObserver]. *)
Definition on_mutations (s : state) : state :=
  let s :=
    match mutationTimeout s with
    | Some handle => clearTimeout handle s
    | None => s
    end in
  let '(handle, s) := setTimeout 200 s in
  set_mutationTimeout handle s.

(** [registerFileTreeObserver]: the previous observer is disconnected
    and a new one observes the tree container; [target] tells whether
    [.nav-files-container] exists, [observe] throwing otherwise. *)
Definition registerFileTreeObserver (target : bool) (s : state) : state :=
  State (now s) (timers s) (next_handle s) (mutationTimeout s) target (runs s).

(** The due times of the timers that have come by time [t], oldest
    first. *)
Definition due_by (t : Z) (s : state) : list Z :=
  merge_sort Z.le (filter (λ due, (due ≤ t)%Z) ((map_to_list (timers s)).*2)).

(** Time passes until [t]: every timer due by then runs its callback,
    at its due time. *)
Definition advance (t : Z) (s : state) : state :=
  State (Z.max (now s) t) (filter (λ kv, (t < kv.2)%Z) (timers s)) (next_handle s)
    (mutationTimeout s) (observing s) (runs s ++ due_by t s).

(** The observed tree changes at time [t]: the observer, when
    connected, gets its callback called. *)
Definition mutation (t : Z) (s : state) : state :=
  let s := advance t s in
  if observing s then on_mutations s else s.

Definition deliver (ts : list Z) (s : state) : state :=
  foldl (λ s t, mutation t s) s ts.

(** At most one callback is pending, and [mutationTimeout] holds its
    handle. *)
Definition at_most_one_pending (s : state) : Prop :=
  timers s = ∅ ∨
  ∃ handle due, timers s = {[ handle := due ]} ∧ mutationTimeout s = Some handle.

(** The plugin when it is loaded, at time [t]. *)
Definition initial (t : Z) : state := State t ∅ 1 None false [].

(** The mutations [ts] follow one at time [t], each less than 200ms
    after the one before. *)
Fixpoint burst_from (t : Z) (ts : list Z) : bool :=
  match ts with
  | [] => true
  | t' :: rest => bool_decide (t ≤ t' < t + 200)%Z && burst_from t' rest
  end.

End Observer.

(** ** Sample data *)

Module Examples.
Import Js Dom Settings.

(** A data file that holds a scheme and nothing else. *)
Definition stored_scheme_only : option json :=
  Some (JObject [("scheme", JString "csPastel")]).

(** A table with one scheme, and a parser that takes every value. *)
Definition sample_color_host : ColorScheme.Host := {|
  ColorScheme.schemes := {[ "csDefault" := ["#e6194b"; "#3cb44b"; "#ffe119"] ]};
  ColorScheme.css_value_ok := λ _, true
|}.

(** A root element that has the contrast attribute and an older colour. *)
Definition sample_root : element :=
  Element None {[ "data-rcs-a11y" := "1"; "lang" := "en" ]} ["theme-dark"]
    {[ "--rcs-color-5" := "#000000" ]}.

(** The sample root after [setColorScheme] with the default settings. *)
Definition sample_restyled_root : element :=
  Element None {[ "lang" := "en" ]} ["theme-dark"]
    {[ "--rcs-color-1" := "#e6194b"; "--rcs-color-2" := "#3cb44b";
       "--rcs-color-3" := "#ffe119"; "--rcs-color-5" := "#000000" ]}.

(** A collation by code units: a strict total order.  No sample
    document reaches a class index that is not an integer, so its text
    is left empty. *)
Definition codeunit_host : FolderStyling.Host := {|
  FolderStyling.localeCompare := String.compare;
  FolderStyling.fraction_text := λ _, ""
|}.

(** The value of the leading decimal digits of [s], after [acc], and
    what follows them. *)
Fixpoint digits_value (s : string) (acc : Z) : Z * string :=
  match s with
  | EmptyString => (acc, s)
  | String c s' =>
      match digit_value c with
      | Some d => digits_value s' (10 * acc + d)%Z
      | None => (acc, s)
      end
  end.

Fixpoint numeric_compare_fuel (fuel : nat) (a b : string) : comparison :=
  match fuel with
  | 0 => Eq
  | S fuel =>
      match a, b with
      | EmptyString, EmptyString => Eq
      | EmptyString, String _ _ => Lt
      | String _ _, EmptyString => Gt
      | String ca a', String cb b' =>
          match digit_value ca, digit_value cb with
          | Some _, Some _ =>
              let '(na, ra) := digits_value a 0 in
              let '(nb, rb) := digits_value b 0 in
              match Z.compare na nb with
              | Eq => numeric_compare_fuel fuel ra rb
              | c => c
              end
          | _, _ =>
              match Ascii.compare ca cb with
              | Eq => numeric_compare_fuel fuel a' b'
              | c => c
              end
          end
      end
  end.

(** A collation with the [numeric] option: runs of decimal digits
    compare by their value, so that leading zeros do not count and
    [foo1] and [foo01] compare equal, as they do for the engine's
    collator; other characters compare by code unit. *)
Definition numeric_compare (a b : string) : comparison :=
  numeric_compare_fuel (String.length a + String.length b) a b.

Definition numeric_host : FolderStyling.Host := {|
  FolderStyling.localeCompare := numeric_compare;
  FolderStyling.fraction_text := λ _, ""
|}.

(** Elements of the file explorer: the item of a folder, the title that
    carries its path, and the container of its children. *)
Definition tree_item (parent : nat) : element :=
  Element (Some parent) ∅ ["tree-item"; "nav-folder"] ∅.

Definition tree_title (parent : nat) (path : string) : element :=
  Element (Some parent) {[ "data-path" := path ]} ["tree-item-self"; "nav-folder-title"] ∅.

Definition tree_children (parent : nat) : element :=
  Element (Some parent) ∅ ["tree-item-children"] ∅.

(** A file explorer with the folders [a] (holding [a/x] and [a/y]) and
    [b] (holding [b/z]), both expanded.  The items are at positions 1
    ([a]), 4 ([a/x]), 6 ([a/y]), 8 ([b]) and 11 ([b/z]). *)
Definition sample_document : document :=
  [ Element None ∅ ["nav-files-container"] ∅;
    tree_item 0; tree_title 1 "a"; tree_children 1;
    tree_item 3; tree_title 4 "a/x";
    tree_item 3; tree_title 6 "a/y";
    tree_item 0; tree_title 8 "b"; tree_children 8;
    tree_item 10; tree_title 11 "b/z" ].

(** The vault behind it; [root_listing] and [a_listing] are the orders
    in which the adapter gives the folders of the root and of [a]. *)
Definition sample_vault (root_listing a_listing : list string) : FolderStyling.Vault := {|
  FolderStyling.adapter_list := λ path,
    if decide (path = "/") then Some root_listing
    else if decide (path = "a") then Some a_listing
    else if decide (path = "b") then Some ["b/z"]
    else None;
  FolderStyling.configDir := ".obsidian"
|}.

(** Both [a] and [b] restart the colours for their folders. *)
Definition sample_settings : RainbowColoredSidebarSettings := {|
  scheme := "csDefault";
  increaseContrast := false;
  folderList := ["a"; "b"]
|}.

(** A file explorer with the folders [foo1] and [foo01]; the items are at
    positions 1 and 3. *)
Definition numbered_document : document :=
  [ Element None ∅ ["nav-files-container"] ∅;
    tree_item 0; tree_title 1 "foo1";
    tree_item 0; tree_title 3 "foo01" ].

Definition numbered_vault (root_listing : list string) : FolderStyling.Vault := {|
  FolderStyling.adapter_list := λ path,
    if decide (path = "/") then Some root_listing else None;
  FolderStyling.configDir := ".obsidian"
|}.

Definition no_sub_folders : RainbowColoredSidebarSettings := {|
  scheme := "csDefault";
  increaseContrast := false;
  folderList := []
|}.

(** A file explorer with five folders, the fifth holding [f5/x]; the item
    of [f5] is at position 9, that of [f5/x] at position 12. *)
Definition five_document : document :=
  [ Element None ∅ ["nav-files-container"] ∅;
    tree_item 0; tree_title 1 "f1";
    tree_item 0; tree_title 3 "f2";
    tree_item 0; tree_title 5 "f3";
    tree_item 0; tree_title 7 "f4";
    tree_item 0; tree_title 9 "f5"; tree_children 9;
    tree_item 11; tree_title 12 "f5/x" ].

Definition five_vault : FolderStyling.Vault := {|
  FolderStyling.adapter_list := λ path,
    if decide (path = "/") then Some ["f1"; "f2"; "f3"; "f4"; "f5"]
    else if decide (path = "f5") then Some ["f5/x"]
    else None;
  FolderStyling.configDir := ".obsidian"
|}.

Definition five_settings : RainbowColoredSidebarSettings := {|
  scheme := "csDefault";
  increaseContrast := false;
  folderList := ["f5"]
|}.

(** The classes of the element at position [n]. *)
Definition classes_at (d : document) (n : nat) : list string :=
  from_option classList [] (d !! n).

End Examples.

(** ** Removing the classes *)

Module FolderReset.
Import Js Dom.

(** The selector [.tree-item[class*="rcs-"]]: the element has the class
    [tree-item], and [rcs-] occurs in its class attribute, that is, in
    one of its class tokens. *)
Definition selected (item : element) : bool :=
  bool_decide ("tree-item" ∈ classList item) &&
  existsb (λ cls, includes cls "rcs-") (classList item).

(** [Array.from(item.classList).filter(cls => cls.startsWith('rcs-'))
      .forEach(cls => item.classList.remove(cls))] *)
Definition remove_rcs_classes : element → element :=
  with_classList (filter (λ cls, startsWith cls "rcs-" = false)).

(** [resetFolderStyling] *)
Definition resetFolderStyling (d : document) : document :=
  (λ item, if selected item then remove_rcs_classes item else item) <$> d.



End FolderReset.

(** ** The plugin: loading, saving settings, unloading *)

Module Lifecycle.
Import Js Dom Settings FolderReset.

(** The plugin and what it acts on: [settings] is [this.settings],
    [data] what the plugin's data file holds, [page] the document, whose
    first element is [document.documentElement], [has_observer] tells
    whether [this.mutationObserver] is set, [watcher] is the state of the
    mutation watcher. *)
Record plugin := Plugin {
  settings : RainbowColoredSidebarSettings;
  data : option json;
  page : document;
  has_observer : bool;
  watcher : Observer.state
}.

Definition with_page (d : document) (p : plugin) : plugin :=
  Plugin (settings p) (data p) d (has_observer p) (watcher p).

Definition with_settings (s : RainbowColoredSidebarSettings) (p : plugin) : plugin :=
  Plugin s (data p) (page p) (has_observer p) (watcher p).

(** An action on [document.documentElement]; [None], a [TypeError],
    when the document has no element. *)
Definition on_documentElement (f : element → option element) (d : document)
    : option document :=
  match d with
  | [] => None
  | root :: rest => root' ← f root; Some (root' :: rest)
  end.

(** [document.querySelector('.nav-files-container')] finds a node. *)
Definition has_files_container (d : document) : bool :=
  bool_decide (Exists (λ e, "nav-files-container" ∈ classList e) d).

(** [this.mutationObserver.disconnect()] *)
Definition disconnect (s : Observer.state) : Observer.state :=
  Observer.State (Observer.now s) (Observer.timers s) (Observer.next_handle s)
    (Observer.mutationTimeout s) false (Observer.runs s).

(** [await this.saveData(this.settings)], taken to resolve: the data
    file holds the settings object. *)
Definition saveData (p : plugin) : plugin :=
  Plugin (settings p) (Some (JObject (settings_members (settings p)))) (page p)
    (has_observer p) (watcher p).

(** [registerFileTreeObserver], with the plugin around it: the previous
    observer is disconnected, a new one is stored, and it observes the
    container when there is one; otherwise [observe] throws.  The
    second component tells whether the function returned. *)
Definition registerFileTreeObserver (p : plugin) : plugin * bool :=
  let target := has_files_container (page p) in
  (Plugin (settings p) (data p) (page p) true
     (Observer.registerFileTreeObserver target (watcher p)),
   target).

Section with_host.
Context {color_host : ColorScheme.Host} {folder_host : FolderStyling.Host}.
Context (v : FolderStyling.Vault).

(** [saveSettings]: the plugin it leaves and whether its promise is
    fulfilled. *)
Definition saveSettings (p : plugin) : plugin * bool :=
  let p := saveData p in
  match on_documentElement (ColorScheme.setColorScheme (settings p)) (page p) with
  | None => (p, false)
  | Some d =>
      let '(d, fulfilled) :=
        FolderStyling.setFolderStyling v (settings p) (resetFolderStyling d) in
      (with_page d p, fulfilled)
  end.


(** [boot] *)
Definition boot (p : plugin) : plugin * bool :=
  match on_documentElement (ColorScheme.setColorScheme (settings p)) (page p) with
  | None => (p, false)
  | Some d =>
      let '(d, fulfilled) := FolderStyling.setFolderStyling v (settings p) d in
      if fulfilled then registerFileTreeObserver (with_page d p)
      else (with_page d p, false)
  end.

(** [style.removeProperty(`--rcs-color-${index + 1}`)] for every colour
    of the scheme, from position [index] on. *)
Fixpoint forEach_removeProperty (index : nat) (colors : list string) (root : element)
    : element :=
  match colors with
  | [] => root
  | _ :: rest =>
      forEach_removeProperty (S index) rest
        (with_style (delete (ColorScheme.rcs_color (index + 1))) root)
  end.

(** [onunload]: the plugin it leaves and whether it returned.  It throws
    at its first line when no observer was ever stored, and at its
    second, the observer disconnected, when the table has no such
    scheme. *)
Definition onunload (p : plugin) : plugin * bool :=
  if has_observer p then
    let p := Plugin (settings p) (data p) (page p) true (disconnect (watcher p)) in
    match ColorScheme.schemes !! scheme (settings p) with
    | None => (p, false)
    | Some colors =>
        match on_documentElement
                (λ root, Some (removeAttribute "data-rcs-a11y"
                                 (forEach_removeProperty 0 colors root))) (page p) with
        | None => (p, false)
        | Some d => (with_page (resetFolderStyling d) p, true)
        end
    end
  else (p, false).


(** The callbacks of the timers that have come by time [t] run:
    [setFolderStyling] once for each, on the document the one before
    left. *)
Definition pass_time (t : Z) (p : plugin) : plugin :=
  Plugin (settings p) (data p)
    (Nat.iter (length (Observer.due_by t (watcher p)))
       (λ d, (FolderStyling.setFolderStyling v (settings p) d).1) (page p))
    (has_observer p) (Observer.advance t (watcher p)).

(** The observed tree changes at time [t]. *)
Definition tree_mutation (t : Z) (p : plugin) : plugin :=
  let p := pass_time t p in
  Plugin (settings p) (data p) (page p) (has_observer p)
    (if Observer.observing (watcher p) then Observer.on_mutations (watcher p)
     else watcher p).

End with_host.
End Lifecycle.

(** ** Folder suggestions *)

Module FolderSuggest.
Import Js.

(** [toLowerCase] on one code unit below 256: the letters A to Z and the
    capital letters of Latin-1 (192 to 222, but the multiplication sign
    215) move up by 32. *)
Definition lower_char (c : ascii) : ascii :=
  let n := nat_of_ascii c in
  if decide (65 ≤ n ≤ 90 ∨ (192 ≤ n ≤ 222 ∧ n ≠ 215))
  then ascii_of_nat (n + 32) else c.

(** [s.toLowerCase()] on a string of code units below 256, where it
    goes code unit by code unit.  On other strings it does not (a
    capital sigma is written by its place in the word), so nothing
    here is proved from the way [toLowerCase] is computed on a
    concatenation. *)
Fixpoint toLowerCase (s : string) : string :=
  match s with
  | EmptyString => EmptyString
  | String c s' => String (lower_char c) (toLowerCase s')
  end.

(** The constructor: [["/"].concat(this.app.vault.getAllFolders().map(folder => folder.path))] *)
Definition folders_of (all_folder_paths : list string) : list string :=
  "/" :: all_folder_paths.

(** [getSuggestions(inputStr)] *)
Definition getSuggestions (folders : list string) (inputStr : string) : list string :=
  let inputLower := toLowerCase inputStr in
  filter (λ folder, includes (toLowerCase folder) inputLower) folders.

End FolderSuggest.

(** ** Mutations that are not one burst *)

Module Debounce.

(** The mutations [ts] follow one at time [t], none earlier than the one
    before and none at the very time the timer of the one before is
    due. *)
Fixpoint spaced_from (t : Z) (ts : list Z) : bool :=
  match ts with
  | [] => true
  | t' :: rest => bool_decide (t ≤ t' ∧ t' ≠ t + 200)%Z && spaced_from t' rest
  end.

(** The times at which the timers of these mutations run: 200ms after
    each mutation that is not followed by another within 200ms. *)
Fixpoint settled_runs (t : Z) (ts : list Z) : list Z :=
  match ts with
  | [] => [(t + 200)%Z]
  | t' :: rest =>
      (if decide (t + 200 < t')%Z then [(t + 200)%Z] else []) ++ settled_runs t' rest
  end.

End Debounce.

(** ** More sample data *)

Module LifecycleExamples.
Import Js Dom Settings Examples Lifecycle.

(** A tree item that a run has styled as a folder of a group. *)
Definition styled_item : element :=
  Element (Some 0) ∅ ["tree-item"; "rcs-item-2"; "nav-folder"; "rcs-sub-item"] ∅.

(** A file explorer whose folder [a] is no tree item. *)
Definition legacy_document : document :=
  [ Element None ∅ ["nav-files-container"] ∅;
    Element (Some 0) ∅ ["nav-folder"] ∅; tree_title 1 "a" ].

(** A page: the root element, the container of the file explorer and
    the folders [a] and [b], whose items are at positions 2 and 4. *)
Definition sample_page : document :=
  [ Element None {[ "lang" := "en" ]} ["theme-dark"] ∅;
    Element (Some 0) ∅ ["nav-files-container"] ∅;
    tree_item 1; tree_title 2 "a";
    tree_item 1; tree_title 4 "b" ].

(** The plugin before [onload] on the sample page. *)
Definition sample_plugin : plugin :=
  Plugin sample_settings None sample_page false (Observer.initial 0).

(** The plugin with its observer connected. *)
Definition watching_plugin : plugin :=
  Plugin sample_settings None sample_page true
    (Observer.registerFileTreeObserver true (Observer.initial 0)).

(** Settings that name a scheme no table has. *)
Definition unknown_scheme : RainbowColoredSidebarSettings := {|
  scheme := "csNone";
  increaseContrast := false;
  folderList := []
|}.

(** A table with a scheme of three colours and one of one colour. *)
Definition two_scheme_host : ColorScheme.Host := {|
  ColorScheme.schemes :=
    {[ "csDefault" := ["#e6194b"; "#3cb44b"; "#ffe119"]; "csShort" := ["#111111"] ]};
  ColorScheme.css_value_ok := λ _, true
|}.

Definition short_scheme : RainbowColoredSidebarSettings := {|
  scheme := "csShort";
  increaseContrast := false;
  folderList := []
|}.

(** The restyled sample root after the change to the short scheme. *)
Definition sample_short_root : element :=
  Element None {[ "lang" := "en" ]} ["theme-dark"]
    {[ "--rcs-color-1" := "#111111"; "--rcs-color-2" := "#3cb44b";
       "--rcs-color-3" := "#ffe119"; "--rcs-color-5" := "#000000" ]}.

(** An object with the three fields of the settings. *)
Definition stored_object : object :=
  {[ "scheme" := JString "csPastel"; "increaseContrast" := JBool true;
     "folderList" := JArray [JString "a"] ]}.

End LifecycleExamples.

(* ===================================================================== *)
(** * Part II: properties                                                  *)
(* ===================================================================== *)

(** ** [loadSettings] *)

Module SettingsFacts.
Import Settings.

Lemma object_set_lookup_ne (target : object) kv k :
  kv.1 ≠ k → object_set target kv !! k = target !! k.
Proof.
  intros Hne. unfold object_set. case_decide; [done|].
  by rewrite lookup_insert_ne.
Qed.

Lemma object_set_is_Some (target : object) kv k :
  is_Some (target !! k) → is_Some (object_set target kv !! k).
Proof.
  intros Hk. unfold object_set. case_decide; [done|].
  destruct (decide (kv.1 = k)) as [->|Hne].
  - rewrite lookup_insert_eq. eauto.
  - by rewrite lookup_insert_ne.
Qed.

Lemma foldl_object_set_is_Some kvs (target : object) k :
  is_Some (target !! k) → is_Some (foldl object_set target kvs !! k).
Proof.
  revert target. induction kvs as [|kv kvs IH]; intros target Hk; simpl; [done|].
  by apply IH, object_set_is_Some.
Qed.

Lemma foldl_object_set_missing kvs (target : object) k :
  k ∉ kvs.*1 → foldl object_set target kvs !! k = target !! k.
Proof.
  revert target. induction kvs as [|kv kvs IH]; intros target Hk; simpl; [done|].
  rewrite fmap_cons, not_elem_of_cons in Hk. destruct Hk as [Hne Hk].
  rewrite IH by done. by apply object_set_lookup_ne.
Qed.

Lemma assign_source_is_Some (target : object) source k :
  is_Some (target !! k) → is_Some (assign_source target source !! k).
Proof.
  intros Hk. destruct source as [[]|]; simpl; try done;
    by apply foldl_object_set_is_Some.
Qed.

Lemma assign_source_missing (target : object) source k :
  k ∉ stored_fields source → assign_source target source !! k = target !! k.
Proof.
  unfold stored_fields.
  destruct source as [[]|]; simpl; try done; apply foldl_object_set_missing.
Qed.

Lemma assign_defaults :
  assign_source ∅ (Some (JObject (settings_members DEFAULT_SETTINGS)))
  = settings_object DEFAULT_SETTINGS.
Proof.
  apply map_eq. intros k. unfold settings_object. simpl.
  unfold object_set. repeat (case_decide; [done|]). done.
Qed.

Lemma loadSettings_unfold stored :
  loadSettings stored = assign_source (settings_object DEFAULT_SETTINGS) stored.
Proof.
  change (loadSettings stored) with
    (assign_source
       (assign_source ∅ (Some (JObject (settings_members DEFAULT_SETTINGS)))) stored).
  by rewrite assign_defaults.
Qed.

Lemma default_fields_present k :
  k ∈ setting_keys → is_Some (settings_object DEFAULT_SETTINGS !! k).
Proof.
  unfold setting_keys. rewrite !elem_of_cons, elem_of_nil.
  intros [->|[->|[->|[]]]]; vm_compute; eauto.
Qed.

(** C10.  After [loadSettings] each of [scheme], [increaseContrast] and
    [folderList] is a property of the settings object, whatever was
    stored; a field the stored data does not have keeps its default
    value; and with nothing stored the settings are the defaults. *)
Theorem loadSettings_total (stored : option json) (k : string) :
  k ∈ setting_keys →
  is_Some (loadSettings stored !! k) ∧
  (k ∉ stored_fields stored →
     loadSettings stored !! k = settings_object DEFAULT_SETTINGS !! k) ∧
  loadSettings None = settings_object DEFAULT_SETTINGS ∧
  settings_object DEFAULT_SETTINGS
    = {[ "scheme" := JString "csDefault";
         "increaseContrast" := JBool false;
         "folderList" := JArray [] ]}.
Proof.
  intros Hk. rewrite !loadSettings_unfold. split_and!.
  - by apply assign_source_is_Some, default_fields_present.
  - apply assign_source_missing.
  - done.
  - by vm_compute.
Qed.

(** A data file that only stores the scheme: the folder list is the
    default one. *)
Lemma loadSettings_total_witness :
  loadSettings Examples.stored_scheme_only !! "folderList" = Some (JArray []).
Proof.
  destruct (loadSettings_total Examples.stored_scheme_only "folderList")
    as (_ & Hdefault & _).
  - unfold setting_keys. set_solver.
  - rewrite Hdefault; [reflexivity|].
    simpl. rewrite list_elem_of_singleton. discriminate.
Defined.

End SettingsFacts.

(** ** [setColorScheme] *)

Module ColorSchemeFacts.
Import Dom Settings ColorScheme.

Section with_host.
Context `{Host}.

#[global] Instance rcs_color_inj : Inj (=) (=) rcs_color.
Proof. intros k1 k2 Heq. unfold rcs_color in Heq. by simplify_eq. Qed.

Lemma setProperty_style_eq name value root :
  style (setProperty name value root) !! name
  = property_after value (style root !! name).
Proof.
  unfold setProperty, property_after. simpl.
  case_decide; [by rewrite lookup_delete_eq|].
  destruct (css_value_ok value); [by rewrite lookup_insert_eq|done].
Qed.

Lemma setProperty_style_ne name name' value root :
  name ≠ name' →
  style (setProperty name value root) !! name' = style root !! name'.
Proof.
  intros Hne. unfold setProperty. simpl.
  case_decide; [by rewrite lookup_delete_ne|].
  destruct (css_value_ok value); [by rewrite lookup_insert_ne|done].
Qed.

Lemma forEach_color_frame index colors root :
  parentElement (forEach_color index colors root) = parentElement root ∧
  attributes (forEach_color index colors root) = attributes root ∧
  classList (forEach_color index colors root) = classList root.
Proof.
  revert index root. induction colors as [|color colors IH]; intros index root; [done|].
  simpl. destruct (IH (S index) (setProperty (rcs_color (index + 1)) color root))
    as (-> & -> & ->). done.
Qed.

(** A name that is none of the variables of the scheme is left alone. *)
Lemma forEach_color_style_other index colors root name :
  (∀ i, i < length colors → name ≠ rcs_color (index + i + 1)) →
  style (forEach_color index colors root) !! name = style root !! name.
Proof.
  revert index root. induction colors as [|color colors IH]; intros index root Hname; [done|].
  simpl. rewrite IH.
  - apply setProperty_style_ne. intros <-. apply (Hname 0); [simpl; lia|].
    f_equal. lia.
  - intros i Hi. replace (S index + i + 1) with (index + S i + 1) by lia.
    apply Hname. simpl. lia.
Qed.

(** The variable of position [i] holds what its own [setProperty] left. *)
Lemma forEach_color_style_at index colors root i color :
  colors !! i = Some color →
  style (forEach_color index colors root) !! rcs_color (index + i + 1)
  = property_after color (style root !! rcs_color (index + i + 1)).
Proof.
  revert index root i. induction colors as [|c colors IH]; intros index root i Hi; [done|].
  destruct i as [|i]; simpl in *.
  - injection Hi as ->. rewrite forEach_color_style_other.
    + replace (index + 0 + 1) with (index + 1) by lia. apply setProperty_style_eq.
    + intros i _ Heq. apply (inj rcs_color) in Heq. lia.
  - replace (index + S i + 1) with (S index + i + 1) by lia.
    rewrite (IH _ _ _ Hi). f_equal. apply setProperty_style_ne.
    intros Heq. apply (inj rcs_color) in Heq. lia.
Qed.

(** The properties [forEach_color] leaves depend on the properties it
    finds only. *)
Lemma forEach_color_style_ext index colors root1 root2 :
  style root1 = style root2 →
  style (forEach_color index colors root1) = style (forEach_color index colors root2).
Proof.
  revert index root1 root2.
  induction colors as [|color colors IH]; intros index root1 root2 Heq; [done|].
  simpl. apply IH. unfold setProperty. simpl. by rewrite Heq.
Qed.

Lemma property_after_idemp value old :
  property_after value (property_after value old) = property_after value old.
Proof.
  unfold property_after. case_decide; [done|]. by destruct (css_value_ok value).
Qed.

(** Applying the same colours again changes no property. *)
Lemma forEach_color_style_again colors root :
  style (forEach_color 0 colors (forEach_color 0 colors root))
  = style (forEach_color 0 colors root).
Proof.
  apply map_eq. intros name.
  destruct (decide (name ∈ (λ i, rcs_color (i + 1)) <$> seq 0 (length colors)))
    as [Hin|Hout].
  - apply list_elem_of_fmap in Hin as (i & -> & Hi). apply elem_of_seq in Hi.
    destruct (lookup_lt_is_Some_2 colors i) as [color Hcolor]; [lia|].
    rewrite !(forEach_color_style_at 0 colors _ i color Hcolor).
    apply property_after_idemp.
  - assert (∀ i, i < length colors → name ≠ rcs_color (0 + i + 1)) as Hname.
    { intros i Hi ->. apply Hout, list_elem_of_fmap. exists i. split; [done|].
      apply elem_of_seq. lia. }
    by rewrite !forEach_color_style_other.
Qed.

(** C7.  For a scheme of the table whose colours the CSS parser takes,
    [setColorScheme] leaves, for every [k] from 1 to the length of the
    scheme, the [k]-th colour under [--rcs-color-k]; a property of any
    other name is as it was before. *)
Theorem setColorScheme_variables settings root colors :
  schemes !! scheme settings = Some colors →
  Forall (λ color, color ≠ "" ∧ css_value_ok color = true) colors →
  ∃ root',
    setColorScheme settings root = Some root' ∧
    (∀ k, 1 ≤ k ≤ length colors →
       is_Some (colors !! (k - 1)) ∧
       style root' !! rcs_color k = colors !! (k - 1)) ∧
    (∀ name, (∀ k, 1 ≤ k ≤ length colors → name ≠ rcs_color k) →
       style root' !! name = style root !! name).
Proof.
  intros Hscheme Hcolors. unfold setColorScheme. rewrite Hscheme. simpl.
  eexists. split; [done|].
  assert (∀ r, style (if increaseContrast settings
                      then setAttribute "data-rcs-a11y" "1" r
                      else removeAttribute "data-rcs-a11y" r) = style r) as Hstyle.
  { intros r. by destruct (increaseContrast settings). }
  rewrite Hstyle. split.
  - intros k Hk.
    destruct (lookup_lt_is_Some_2 colors (k - 1)) as [color Hcolor]; [lia|].
    split; [by eauto|]. rewrite Hcolor.
    pose proof (forEach_color_style_at 0 colors root (k - 1) color Hcolor) as Hat.
    replace (0 + (k - 1) + 1) with k in Hat by lia. rewrite Hat.
    rewrite Forall_forall in Hcolors.
    destruct (Hcolors color) as [Hne Hok]; [by eapply list_elem_of_lookup_2|].
    unfold property_after. case_decide; [done|]. by rewrite Hok.
  - intros name Hname. apply forEach_color_style_other.
    intros i Hi. replace (0 + i + 1) with (i + 1) by lia. apply Hname. lia.
Qed.

(** With a scheme of the table, a run and a second run with the
    contrast setting toggled. *)
Lemma setColorScheme_twice settings root :
  is_Some (schemes !! scheme settings) →
  ∃ root' root'',
    setColorScheme settings root = Some root' ∧
    hasAttribute "data-rcs-a11y" root' = increaseContrast settings ∧
    setColorScheme (toggle_increaseContrast settings) root' = Some root'' ∧
    hasAttribute "data-rcs-a11y" root'' = negb (increaseContrast settings) ∧
    style root'' = style root' ∧
    classList root'' = classList root' ∧
    parentElement root'' = parentElement root' ∧
    (∀ name, name ≠ "data-rcs-a11y" →
       attributes root'' !! name = attributes root' !! name).
Proof.
  intros [colors Hscheme]. unfold setColorScheme. simpl. rewrite Hscheme. simpl.
  do 2 eexists. split; [done|]. split.
  { unfold hasAttribute. destruct (increaseContrast settings); simpl.
    - rewrite lookup_insert_eq. by apply bool_decide_eq_true_2.
    - rewrite lookup_delete_eq. apply bool_decide_eq_false_2. by intros [??]. }
  split; [done|].
  pose proof (forEach_color_style_again colors root) as Hagain.
  destruct (increaseContrast settings); simpl.
  - unfold hasAttribute. simpl. rewrite lookup_delete_eq.
    split; [apply bool_decide_eq_false_2; by intros [??]|].
    destruct (forEach_color_frame 0 colors
                (setAttribute "data-rcs-a11y" "1" (forEach_color 0 colors root)))
      as (Hp & Ha & Hc).
    rewrite Hp, Ha, Hc. simpl. split_and!; try done.
    + destruct (forEach_color_frame 0 colors root) as (Hp' & Ha' & Hc').
      etrans; [|exact Hagain].
      by apply forEach_color_style_ext.
    + intros name Hne. by rewrite lookup_delete_ne, lookup_insert_ne.
  - unfold hasAttribute. simpl. rewrite lookup_insert_eq.
    split; [by apply bool_decide_eq_true_2|].
    destruct (forEach_color_frame 0 colors
                (removeAttribute "data-rcs-a11y" (forEach_color 0 colors root)))
      as (Hp & Ha & Hc).
    rewrite Hp, Ha, Hc. simpl. split_and!; try done.
    + etrans; [|exact Hagain].
      by apply forEach_color_style_ext.
    + intros name Hne. by rewrite lookup_insert_ne, lookup_delete_ne.
Qed.

(** [setColorScheme] returns exactly when the table has the scheme. *)
Lemma setColorScheme_returns settings root :
  is_Some (setColorScheme settings root) ↔ is_Some (schemes !! scheme settings).
Proof.
  unfold setColorScheme. destruct (schemes !! scheme settings); simpl; [|done].
  split; eauto.
Qed.

(** C8.  After a run of [setColorScheme] the root has the attribute
    [data-rcs-a11y] exactly when [increaseContrast] is set; run again
    with the setting toggled, [setColorScheme] returns again, flips the
    attribute and changes nothing else of the root.  A run returns
    exactly when the table has the scheme of the settings. *)
Theorem setColorScheme_contrast settings root root' :
  setColorScheme settings root = Some root' →
  is_Some (schemes !! scheme settings) ∧
  hasAttribute "data-rcs-a11y" root' = increaseContrast settings ∧
  ∃ root'',
    setColorScheme (toggle_increaseContrast settings) root' = Some root'' ∧
    hasAttribute "data-rcs-a11y" root'' = negb (increaseContrast settings) ∧
    style root'' = style root' ∧
    classList root'' = classList root' ∧
    parentElement root'' = parentElement root' ∧
    (∀ name, name ≠ "data-rcs-a11y" →
       attributes root'' !! name = attributes root' !! name).
Proof.
  intros Hrun.
  assert (is_Some (schemes !! scheme settings)) as Hscheme.
  { apply (setColorScheme_returns settings root). by eexists. }
  destruct (setColorScheme_twice settings root Hscheme)
    as (r' & r'' & Hrun' & Hattr & Hagain & Hflip & Hrest).
  rewrite Hrun in Hrun'. injection Hrun' as <-.
  split; [done|]. split; [done|]. by exists r''.
Qed.

End with_host.
End ColorSchemeFacts.

(** ** The DOM operations *)

Module DomFacts.
Import Dom.

Lemma annotates_refl P e : annotates P e e.
Proof. repeat split. exists []. by rewrite app_nil_r. Qed.

Lemma annotates_trans P e1 e2 e3 :
  annotates P e1 e2 → annotates P e2 e3 → annotates P e1 e3.
Proof.
  intros (Hp1 & Ha1 & Hs1 & add1 & Hc1 & HP1) (Hp2 & Ha2 & Hs2 & add2 & Hc2 & HP2).
  repeat split; [congruence..|].
  exists (add1 ++ add2). split; [|by apply Forall_app].
  by rewrite Hc2, Hc1, (assoc_L (++)).
Qed.

Lemma annotates_classList_add P token e :
  P token → annotates P e (classList_add token e).
Proof.
  intros HP. repeat split. unfold classList_add, token_add. simpl.
  case_decide.
  - exists []. by rewrite app_nil_r.
  - exists [token]. split; [done|]. by constructor.
Qed.

Lemma classList_add_elem token e : token ∈ classList (classList_add token e).
Proof.
  unfold classList_add, token_add. simpl. case_decide; [done|].
  apply elem_of_app. right. by apply list_elem_of_singleton.
Qed.

Lemma annotated_refl P d : annotated P d d.
Proof. apply Forall2_same_length_lookup_2; [done|]. intros; simplify_eq. apply annotates_refl. Qed.

Lemma annotated_trans P d1 d2 d3 :
  annotated P d1 d2 → annotated P d2 d3 → annotated P d1 d3.
Proof.
  unfold annotated. intros H12. revert d3.
  induction H12 as [|e1 e2 d1 d2 He H12 IH]; intros d3 H23; inv H23; constructor.
  - by eapply annotates_trans.
  - by apply IH.
Qed.

Lemma annotated_length P d d' : annotated P d d' → length d' = length d.
Proof. intros Hd. symmetry. by eapply Forall2_length. Qed.

Lemma annotated_lookup P d d' n e :
  annotated P d d' → d !! n = Some e →
  ∃ e', d' !! n = Some e' ∧ annotates P e e'.
Proof. intros Hd Hn. by eapply Forall2_lookup_l. Qed.

(** A class an element has stays through annotation. *)
Lemma annotated_keeps_class P d d' n e token :
  annotated P d d' → d !! n = Some e → token ∈ classList e →
  ∃ e', d' !! n = Some e' ∧ token ∈ classList e'.
Proof.
  intros Hd Hn Htoken.
  destruct (annotated_lookup _ _ _ _ _ Hd Hn) as (e' & Hn' & _ & _ & _ & added & Hc & _).
  exists e'. split; [done|]. rewrite Hc. apply elem_of_app. by left.
Qed.

Lemma annotated_alter_classList_add P token p d :
  P token → annotated P d (alter (classList_add token) p d).
Proof.
  intros HP. apply Forall2_alter_r; [apply annotated_refl|].
  intros e e' He He' _. simplify_eq. by apply annotates_classList_add.
Qed.

Lemma add_class_to_parent_annotated P path token d :
  P token → annotated P d (add_class_to_parent path token d).
Proof.
  intros HP. unfold add_class_to_parent.
  destruct (parent_of_data_path d path) as [[p e]|]; [|apply annotated_refl].
  by apply annotated_alter_classList_add.
Qed.

(** Queries by [data-path] read attributes and parents only, so they
    find the same positions in an annotated document. *)
Lemma annotated_querySelector P d d' path :
  annotated P d d' →
  querySelector_data_path d' path = querySelector_data_path d path.
Proof.
  unfold querySelector_data_path. induction 1 as [|e e' d d' He Hd IH]; [done|].
  destruct He as (_ & Ha & _). simpl. rewrite Ha.
  case_decide; [done|].
  rewrite <-!option_fmap_compose.
  change (fst ∘ prod_map S id) with (S ∘ (@fst nat element)).
  rewrite !option_fmap_compose. by rewrite IH.
Qed.

Lemma annotated_parentElement_of P d d' n :
  annotated P d d' →
  fst <$> parentElement_of d' n = fst <$> parentElement_of d n.
Proof.
  intros Hd. unfold parentElement_of.
  destruct (d !! n) as [e|] eqn:Hn.
  - destruct (annotated_lookup _ _ _ _ _ Hd Hn) as (e' & -> & Hp & _). simpl.
    rewrite Hp. destruct (parentElement e) as [p|]; [simpl|done].
    destruct (d !! p) as [pe|] eqn:Hpe.
    + by destruct (annotated_lookup _ _ _ _ _ Hd Hpe) as (pe' & -> & _).
    + apply lookup_ge_None in Hpe. rewrite <-(annotated_length _ _ _ Hd) in Hpe.
      apply lookup_ge_None in Hpe. by rewrite Hpe.
  - apply lookup_ge_None in Hn. rewrite <-(annotated_length _ _ _ Hd) in Hn.
    apply lookup_ge_None in Hn. by rewrite Hn.
Qed.

Lemma annotated_parent_of_data_path P d d' path :
  annotated P d d' →
  fst <$> parent_of_data_path d' path = fst <$> parent_of_data_path d path.
Proof.
  intros Hd. unfold parent_of_data_path.
  rewrite (annotated_querySelector _ _ _ _ Hd).
  destruct (querySelector_data_path d path) as [n|]; [simpl|done].
  by eapply annotated_parentElement_of.
Qed.

Lemma parent_of_data_path_lookup d path p e :
  parent_of_data_path d path = Some (p, e) → d !! p = Some e.
Proof.
  unfold parent_of_data_path, parentElement_of. intros Hq.
  destruct (querySelector_data_path d path) as [n|]; simplify_option_eq; done.
Qed.

(** The parent found for [path] gets the token. *)
Lemma add_class_to_parent_adds path token d p :
  fst <$> parent_of_data_path d path = Some p →
  ∃ e', add_class_to_parent path token d !! p = Some e' ∧ token ∈ classList e'.
Proof.
  intros Hp. unfold add_class_to_parent.
  destruct (parent_of_data_path d path) as [[p' e]|] eqn:Hq; simplify_eq/=.
  apply parent_of_data_path_lookup in Hq.
  exists (classList_add token e). split; [|apply classList_add_elem].
  by rewrite list_lookup_alter_eq, Hq.
Qed.


End DomFacts.

(** ** The folder indexer *)

Module FolderStylingFacts.
Import Js Dom Settings FolderStyling DomFacts.

(** *** Class indices and tokens *)

Lemma classIndex_mod i : classIndex i = (Z.of_nat i mod 16 + 1)%Z.
Proof. unfold classIndex. by rewrite Z.rem_mod_nonneg by lia. Qed.

Lemma classIndex_range i : (1 ≤ classIndex i ≤ 16)%Z.
Proof.
  rewrite classIndex_mod. pose proof (Z.mod_pos_bound (Z.of_nat i) 16). lia.
Qed.

Lemma classIndex_period i : classIndex (i + 16) = classIndex i.
Proof.
  rewrite !classIndex_mod. rewrite Nat2Z.inj_add.
  change (Z.of_nat 16) with (1 * 16)%Z. by rewrite Z.mod_add by lia.
Qed.

#[global] Instance rcs_item_inj : Inj (=) (=) rcs_item.
Proof. intros k1 k2 Heq. unfold rcs_item in Heq. by simplify_eq. Qed.

Lemma index_tokens_spec token :
  token ∈ index_tokens ↔ ∃ k, (1 ≤ k ≤ 16)%Z ∧ token = rcs_item k.
Proof.
  unfold index_tokens. rewrite list_elem_of_fmap. split.
  - intros (k & -> & Hk). apply elem_of_seqZ in Hk. exists k. split; [lia|done].
  - intros (k & Hk & ->). exists k. split; [done|]. apply elem_of_seqZ. lia.
Qed.

Lemma classIndex_token i : rcs_item (classIndex i) ∈ index_tokens.
Proof. apply index_tokens_spec. exists (classIndex i). split; [apply classIndex_range|done]. Qed.

Lemma index_tokens_read_well token :
  token ∈ index_tokens → token_reads_well token = true.
Proof.
  assert (forallb token_reads_well index_tokens = true) as Hall by (by vm_compute).
  intros Htoken. apply Is_true_true. apply Is_true_true in Hall.
  apply forallb_True in Hall. rewrite Forall_forall in Hall. by apply Hall.
Qed.

Lemma index_token_start token :
  token ∈ index_tokens →
  truthy token = true ∧ ∃ n, new_rcs_index token = JInt n ∧ (0 ≤ n)%Z.
Proof.
  intros Htoken%index_tokens_read_well. unfold token_reads_well in Htoken.
  apply andb_true_iff in Htoken as [[_ Htruthy]%andb_true_iff Hnum].
  split; [done|]. destruct (new_rcs_index token) as [n| |]; try done.
  exists n. split; [done|]. by apply bool_decide_eq_true_1 in Hnum.
Qed.

Lemma includes_truthy token p : includes token (String "r" p) = true → truthy token = true.
Proof. by destruct token. Qed.

Lemma sub_item_not_index : includes "rcs-sub-item" "rcs-item" = false.
Proof. reflexivity. Qed.

Section with_host.
Context `{Host}.

Lemma sub_class_token_index n j :
  (0 ≤ n)%Z → sub_class_token (JInt n) j ∈ index_tokens.
Proof.
  intros Hn. simpl. apply index_tokens_spec. eexists. split; [|done].
  rewrite Z.rem_mod_nonneg by lia.
  pose proof (Z.mod_pos_bound (n + 1 + Z.of_nat j) 16). lia.
Qed.

Lemma sub_class_token_plugin token j :
  token ∈ index_tokens → plugin_token (sub_class_token (new_rcs_index token) j).
Proof.
  intros (_ & n & -> & Hn)%index_token_start. right. by apply sub_class_token_index.
Qed.

(** *** The invariant on classes *)

Lemma plugin_token_own token :
  plugin_token token → includes token "rcs-item" = true → token ∈ index_tokens.
Proof. intros [->|Hin]; [by rewrite sub_item_not_index|done]. Qed.

Lemma own_rcs_items_only_annotated d d' :
  own_rcs_items_only d → annotated plugin_token d d' → own_rcs_items_only d'.
Proof.
  unfold own_rcs_items_only, annotated. intros Hown Hd.
  induction Hd as [|e e' d d' He Hd IH]; [done|].
  apply Forall_cons in Hown as [He_own Hd_own]. constructor; [|by apply IH].
  destruct He as (_ & _ & _ & added & -> & Hadded).
  apply Forall_app. split; [done|].
  eapply Forall_impl; [exact Hadded|]. intros token. apply plugin_token_own.
Qed.

Lemma parent_rcs_index_elem tokens token :
  parent_rcs_index tokens = Some token →
  token ∈ tokens ∧ includes token "rcs-item" = true.
Proof.
  unfold parent_rcs_index. intros Hhead.
  assert (token ∈ filter (λ item, includes item "rcs-item") tokens) as Hin.
  { apply head_Some in Hhead as [rest ->]. by left. }
  apply list_elem_of_filter in Hin as [Hinc Hin]. split; [done|].
  by apply Is_true_true.
Qed.

Lemma group_parent_token_elem d sub_folder token :
  group_parent_token d sub_folder = Some token →
  includes token "rcs-item" = true ∧
  ∃ p e, d !! p = Some e ∧ token ∈ classList e.
Proof.
  unfold group_parent_token. intros Htoken.
  destruct (parent_of_data_path d (split_head "/" sub_folder)) as [[p e]|] eqn:Hp;
    simplify_eq/=.
  apply parent_rcs_index_elem in Htoken as [Hin Hinc]. split; [done|].
  exists p, e. split; [|done]. by eapply parent_of_data_path_lookup.
Qed.

Lemma group_parent_token_own d sub_folder token :
  own_rcs_items_only d → group_parent_token d sub_folder = Some token →
  token ∈ index_tokens.
Proof.
  intros Hown (Hinc & p & e & Hp & Hin)%group_parent_token_elem.
  unfold own_rcs_items_only in Hown. rewrite Forall_lookup in Hown.
  specialize (Hown p e Hp). rewrite Forall_forall in Hown. by apply Hown.
Qed.

(** *** The passes only annotate *)

Lemma style_top_annotated (P : string → Prop) i folders d :
  (∀ i, P (rcs_item (classIndex i))) → annotated P d (style_top i folders d).
Proof.
  intros HP. revert i d. induction folders as [|folder folders IH]; intros i d; simpl.
  - apply annotated_refl.
  - eapply annotated_trans; [|apply IH]. by apply add_class_to_parent_annotated.
Qed.

Lemma style_group_annotated (P : string → Prop) n j ext d :
  P "rcs-sub-item" → (∀ j, P (sub_class_token n j)) →
  annotated P d (style_group n j ext d).
Proof.
  intros Hsub HP. revert j d. induction ext as [|folder ext IH]; intros j d; simpl.
  - apply annotated_refl.
  - eapply annotated_trans; [|apply IH].
    eapply annotated_trans; by apply add_class_to_parent_annotated.
Qed.

Lemma style_sub_folder_annotated (P : string → Prop) v sub_folder d d' :
  P "rcs-sub-item" →
  (∀ token j, group_parent_token d sub_folder = Some token →
     P (sub_class_token (new_rcs_index token) j)) →
  style_sub_folder v sub_folder d = Some d' → annotated P d d'.
Proof.
  intros Hsub HP. unfold style_sub_folder.
  destruct (adapter_list v sub_folder) as [listing|]; [simpl|done].
  intros [= <-]. destruct (group_parent_token d sub_folder) as [token|];
    [|apply annotated_refl].
  destruct (truthy token); [|apply annotated_refl].
  apply style_group_annotated; [done|]. intros j. by apply HP.
Qed.

(** With an invariant [I] of the document that makes the tokens of every
    group satisfy [P] and that annotation keeps. *)
Lemma style_sub_folders_annotated (P : string → Prop) (I : document → Prop)
    v sub_folders d :
  P "rcs-sub-item" →
  (∀ d sub_folder token j, I d → group_parent_token d sub_folder = Some token →
     P (sub_class_token (new_rcs_index token) j)) →
  (∀ d d', I d → annotated P d d' → I d') →
  I d → annotated P d (style_sub_folders v sub_folders d).1.
Proof.
  intros Hsub HP HI. revert d.
  induction sub_folders as [|sub_folder rest IH]; intros d Hd; simpl.
  - apply annotated_refl.
  - destruct (style_sub_folder v sub_folder d) as [d'|] eqn:Hstep;
      [|apply annotated_refl].
    assert (annotated P d d') as Hstepd.
    { eapply style_sub_folder_annotated; [done| |done]. intros token j. by apply HP. }
    eapply annotated_trans; [exact Hstepd|]. apply IH. by eapply HI.
Qed.

(** Every run leaves the elements, their parents, attributes and styles
    as they were and only adds classes. *)
Lemma setFolderStyling_annotated v settings d :
  annotated (λ _, True) d (setFolderStyling v settings d).1.
Proof.
  unfold setFolderStyling.
  destruct (adapter_list v "/") as [listing|]; [|apply annotated_refl].
  eapply annotated_trans; [by apply style_top_annotated|].
  by apply (style_sub_folders_annotated _ (λ _, True)).
Qed.

(** On a document whose [rcs-item] classes are the plugin's, every class
    a run adds is one of the plugin's, and the document it leaves is
    such a document again. *)
Lemma setFolderStyling_plugin_tokens v settings d :
  own_rcs_items_only d →
  annotated plugin_token d (setFolderStyling v settings d).1 ∧
  own_rcs_items_only (setFolderStyling v settings d).1.
Proof.
  intros Hown.
  assert (annotated plugin_token d (setFolderStyling v settings d).1) as Hd.
  { unfold setFolderStyling.
    destruct (adapter_list v "/") as [listing|]; [|apply annotated_refl].
    assert (annotated plugin_token d (style_top 0 (top_folders listing) d)) as Htop.
    { apply style_top_annotated. intros i. right. apply classIndex_token. }
    eapply annotated_trans; [exact Htop|].
    apply (style_sub_folders_annotated _ own_rcs_items_only).
    - by left.
    - intros d0 sub_folder token j Hown0 Htoken.
      apply sub_class_token_plugin. by eapply group_parent_token_own.
    - apply own_rcs_items_only_annotated.
    - by eapply own_rcs_items_only_annotated. }
  split; [done|]. by eapply own_rcs_items_only_annotated.
Qed.

(** *** What each loop adds, and where *)

Lemma style_top_marks folders i0 d i folder p :
  folders !! i = Some folder →
  fst <$> parent_of_data_path d folder = Some p →
  ∃ e', style_top i0 folders d !! p = Some e' ∧
        rcs_item (classIndex (i0 + i)) ∈ classList e'.
Proof.
  revert i0 d i. induction folders as [|f folders IH]; intros i0 d i Hi Hp; [done|].
  simpl. destruct i as [|i]; simpl in Hi.
  - injection Hi as ->. rewrite Nat.add_0_r.
    destruct (add_class_to_parent_adds folder (rcs_item (classIndex i0)) d p Hp)
      as (e1 & He1 & Htoken).
    eapply annotated_keeps_class; [|exact He1|exact Htoken].
    by apply (style_top_annotated (λ _, True)).
  - replace (i0 + S i) with (S i0 + i) by lia. apply IH; [done|].
    rewrite <-Hp. eapply annotated_parent_of_data_path.
    by apply (add_class_to_parent_annotated (λ _, True)).
Qed.


Lemma style_group_marks n ext j0 d j folder p :
  ext !! j = Some folder →
  fst <$> parent_of_data_path d folder = Some p →
  ∃ e', style_group n j0 ext d !! p = Some e' ∧
        sub_class_token n (j0 + j) ∈ classList e' ∧
        "rcs-sub-item" ∈ classList e'.
Proof.
  revert j0 d j. induction ext as [|f ext IH]; intros j0 d j Hj Hp; [done|].
  simpl. destruct j as [|j]; simpl in Hj.
  - injection Hj as ->. rewrite Nat.add_0_r.
    set (d1 := add_class_to_parent folder (sub_class_token n j0) d).
    assert (annotated (λ _, True) d d1) as Hd1
      by by apply add_class_to_parent_annotated.
    set (d2 := add_class_to_parent folder "rcs-sub-item" d1).
    assert (annotated (λ _, True) d1 d2) as Hd2
      by by apply add_class_to_parent_annotated.
    assert (annotated (λ _, True) d2 (style_group n (S j0) ext d2)) as Hrest
      by by apply style_group_annotated.
    destruct (add_class_to_parent_adds folder (sub_class_token n j0) d p Hp)
      as (e1 & He1 & Htoken). fold d1 in He1.
    assert (fst <$> parent_of_data_path d1 folder = Some p) as Hp1.
    { rewrite <-Hp. by eapply annotated_parent_of_data_path. }
    destruct (add_class_to_parent_adds folder "rcs-sub-item" d1 p Hp1)
      as (e2 & He2 & Hsub). fold d2 in He2.
    destruct (annotated_keeps_class _ _ _ _ _ _ Hd2 He1 Htoken) as (e2' & He2' & Htoken2).
    simplify_eq.
    destruct (annotated_lookup _ _ _ _ _ Hrest He2) as (e3 & He3 & _ & _ & _ & added & Hc & _).
    exists e3. split; [done|]. rewrite Hc. split; apply elem_of_app; by left.
  - replace (j0 + S j) with (S j0 + j) by lia. apply IH; [done|].
    rewrite <-Hp. eapply annotated_parent_of_data_path.
    eapply annotated_trans; by apply (add_class_to_parent_annotated (λ _, True)).
Qed.

(** *** The sorted listing *)

Lemma insert_sorted_Permutation x l : insert_sorted x l ≡ₚ x :: l.
Proof.
  induction l as [|y l IH]; simpl; [done|].
  case_decide; [done|]. by rewrite IH, Permutation_swap.
Qed.

Lemma sort_Permutation l : sort l ≡ₚ l.
Proof.
  induction l as [|x l IH]; simpl; [done|].
  by rewrite insert_sorted_Permutation, IH.
Qed.

Lemma insert_sorted_HdRel x y l :
  before y x → HdRel before y l → HdRel before y (insert_sorted x l).
Proof.
  intros Hyx Hl. destruct l as [|z l]; simpl; [by constructor|].
  case_decide; constructor; [done|]. by inv Hl.
Qed.

Lemma insert_sorted_Sorted x l :
  (∀ a b, localeCompare a b = Gt → localeCompare b a ≠ Gt) →
  Sorted before l → Sorted before (insert_sorted x l).
Proof.
  intros Hflip. induction 1 as [|y l Hl IH Hy]; simpl.
  - by repeat constructor.
  - case_decide as Hxy.
    + constructor; [by constructor|by constructor].
    + constructor; [done|]. apply insert_sorted_HdRel; [|done].
      apply Hflip. unfold before in Hxy.
      destruct (localeCompare x y); [by destruct Hxy..|done].
Qed.

Lemma top_folders_Permutation listing :
  top_folders listing ≡ₚ filter (λ folder, visible folder) listing.
Proof. apply sort_Permutation. Qed.

Lemma top_folders_elem listing folder :
  folder ∈ top_folders listing ↔ visible folder = true ∧ folder ∈ listing.
Proof.
  rewrite top_folders_Permutation, list_elem_of_filter.
  by rewrite Is_true_true.
Qed.


Lemma style_sub_folders_only_annotates v sub_folders d :
  annotated (λ _, True) d (style_sub_folders v sub_folders d).1.
Proof. by apply (style_sub_folders_annotated _ (λ _, True)). Qed.

Lemma sort_Sorted l :
  (∀ a b, localeCompare a b = Gt → localeCompare b a ≠ Gt) →
  Sorted before (sort l).
Proof.
  intros Hflip. induction l as [|x l IH]; simpl; [constructor|].
  by apply insert_sorted_Sorted.
Qed.

(** *** The claims on the indexer *)

(** C1.  The folders the top-level pass styles are the visible folders
    of the root listing, sorted.  The one at position [i] (from 0) gets
    the class [rcs-item-k] with [k = (i mod 16) + 1]: when the paths of
    the folders up to it can stand in the selector, so that the loop
    gets to it, the parent of the node that carries its path has that
    class when [setFolderStyling] is done.  So [k] is between 1 and 16,
    and the folder sixteen places further gets the same [k]. *)
Theorem top_level_class_index v settings d listing i folder :
  adapter_list v "/" = Some listing →
  top_folders listing !! i = Some folder →
  top_folders listing ≡ₚ filter (λ folder, visible folder) listing ∧
  ((∀ a b, localeCompare a b = Gt → localeCompare b a ≠ Gt) →
     Sorted before (top_folders listing)) ∧
  classIndex i = (Z.of_nat i mod 16 + 1)%Z ∧
  (1 ≤ classIndex i ≤ 16)%Z ∧
  classIndex (i + 16) = classIndex i ∧
  (Forall selector_safe (take (S i) (top_folders listing)) →
   ∀ p, fst <$> parent_of_data_path d folder = Some p →
     ∃ e', (setFolderStyling v settings d).1 !! p = Some e' ∧
           rcs_item (classIndex i) ∈ classList e').
Proof.
  intros Hlisting Hi. refine (conj _ (conj _ (conj _ (conj _ (conj _ _))))).
  - apply top_folders_Permutation.
  - apply sort_Sorted.
  - apply classIndex_mod.
  - apply classIndex_range.
  - apply classIndex_period.
  - intros _ p Hp. unfold setFolderStyling. rewrite Hlisting.
    destruct (style_top_marks (top_folders listing) 0 d i folder p Hi Hp)
      as (e1 & He1 & Htoken).
    eapply annotated_keeps_class; [|exact He1|exact Htoken].
    apply style_sub_folders_only_annotates.
Qed.

(** C2, as the code has it.  The folders of a designated path are
    numbered from 0 within their group, and the [j]-th of them gets,
    with [rcs-sub-item], the class computed from [j] and from the first
    [rcs-item] token found on the tree item of the path's first segment:
    the numbering starts again in every group, but from a value taken
    from that token.  The first segment and the paths of the group are
    paths that can stand in the selector, so that the pass over the
    group returns. *)
Theorem sub_group_class_from_parent_token v sub_folder d listing token j folder p :
  adapter_list v sub_folder = Some listing →
  selector_safe (split_head "/" sub_folder) →
  Forall selector_safe (group_folders v listing) →
  group_parent_token d sub_folder = Some token →
  group_folders v listing !! j = Some folder →
  fst <$> parent_of_data_path d folder = Some p →
  ∃ d' e',
    style_sub_folder v sub_folder d = Some d' ∧
    d' !! p = Some e' ∧
    sub_class_token (new_rcs_index token) j ∈ classList e' ∧
    "rcs-sub-item" ∈ classList e'.
Proof.
  intros Hlisting _ _ Htoken Hj Hp. unfold style_sub_folder.
  rewrite Hlisting. simpl. rewrite Htoken.
  destruct (group_parent_token_elem _ _ _ Htoken) as [Hinc _].
  rewrite (includes_truthy _ _ Hinc).
  destruct (style_group_marks (new_rcs_index token) (group_folders v listing)
              0 d j folder p Hj Hp) as (e' & He' & Hidx & Hsub).
  by eexists _, e'.
Qed.

(** C4, as the code has it.  When the collation is a total preorder
    under which no two different folders of the root listing compare
    equal, the top-level pass does not depend on the order in which the
    adapter lists the root: two listings of the same folders give the
    same sorted folders and the same classes; and two runs whose vaults
    differ in the order of the root listing only leave the same
    document. *)
Theorem top_level_order_independent v1 v2 settings d l1 l2 :
  (∀ a b, localeCompare a b = CompOpp (localeCompare b a)) →
  (∀ a b c, localeCompare a b ≠ Gt → localeCompare b c ≠ Gt → localeCompare a c ≠ Gt) →
  (∀ a b, a ∈ l1 → b ∈ l1 → localeCompare a b = Eq → a = b) →
  l1 ≡ₚ l2 →
  adapter_list v1 "/" = Some l1 →
  adapter_list v2 "/" = Some l2 →
  (∀ sub_folder, sub_folder ∈ folderList settings →
     adapter_list v1 sub_folder = adapter_list v2 sub_folder) →
  configDir v1 = configDir v2 →
  top_folders l1 = top_folders l2 ∧
  setFolderStyling v1 settings d = setFolderStyling v2 settings d.
Proof.
  intros Hopp Htrans Hties Hperm Hl1 Hl2 Hsubs Hconfig.
  assert (top_folders l1 = top_folders l2) as Htop.
  { assert (∀ a b, localeCompare a b = Gt → localeCompare b a ≠ Gt) as Hflip.
    { intros a b Hab. rewrite Hopp, Hab. done. }
    assert (Transitive before) as Htr by (intros a b c; apply Htrans).
    apply (Sorted_unique_strong before); [|by apply sort_Sorted..|].
    - intros a b Ha Hb Hab Hba. apply Hties.
      + by apply top_folders_elem in Ha as [_ Ha].
      + apply top_folders_elem in Hb as [_ Hb]. by rewrite Hperm.
      + unfold before in *. rewrite Hopp in Hab.
        destruct (localeCompare b a) eqn:Heq; simpl in *; try done.
        by rewrite Hopp, Heq.
    - by rewrite !top_folders_Permutation, Hperm. }
  split; [done|]. unfold setFolderStyling. rewrite Hl1, Hl2, Htop.
  generalize (style_top 0 (top_folders l2) d). clear -Hsubs Hconfig.
  induction (folderList settings) as [|sub_folder rest IH]; intros d0; [done|].
  simpl. unfold style_sub_folder, group_folders.
  rewrite <-Hsubs, Hconfig by by left.
  destruct (adapter_list v1 sub_folder); simpl; [|done].
  apply IH. intros s Hs. apply Hsubs. by right.
Qed.

(** C6.  A run of [setFolderStyling], fulfilled or not, leaves as many
    elements as it found, each with the parent, the attributes
    ([data-path] among them) and the style it had, and with the classes
    it had followed by the classes added.  On a document in which every
    class that contains [rcs-item] is one of [rcs-item-1] to
    [rcs-item-16], each added class is [rcs-sub-item] or [rcs-item-k]
    with [k] from 1 to 16, and the document left is again such a
    document. *)
Theorem setFolderStyling_frame v settings d :
  length (setFolderStyling v settings d).1 = length d ∧
  (∀ n e, d !! n = Some e →
    ∃ e' added,
      (setFolderStyling v settings d).1 !! n = Some e' ∧
      parentElement e' = parentElement e ∧
      attributes e' = attributes e ∧
      style e' = style e ∧
      classList e' = classList e ++ added ∧
      (own_rcs_items_only d →
         Forall (λ token, token = "rcs-sub-item" ∨
                          ∃ k, (1 ≤ k ≤ 16)%Z ∧ token = rcs_item k) added)) ∧
  (own_rcs_items_only d → own_rcs_items_only (setFolderStyling v settings d).1).
Proof.
  pose proof (setFolderStyling_annotated v settings d) as Hd.
  split; [by eapply annotated_length|]. split.
  - intros n e Hn.
    destruct (annotated_lookup _ _ _ _ _ Hd Hn)
      as (e' & Hn' & Hp & Ha & Hs & added & Hc & _).
    exists e', added. split_and!; try done.
    intros Hown.
    destruct (setFolderStyling_plugin_tokens v settings d Hown) as [Hplugin _].
    destruct (annotated_lookup _ _ _ _ _ Hplugin Hn)
      as (e'' & Hn'' & _ & _ & _ & added' & Hc' & Hadded).
    simplify_eq. rewrite Hc in Hc'. apply app_inv_head in Hc' as ->.
    eapply Forall_impl; [exact Hadded|]. intros token [->|Hin]; [by left|].
    right. by apply index_tokens_spec.
  - intros Hown. by apply setFolderStyling_plugin_tokens.
Qed.


End with_host.

(** C3, at the fifth top-level folder.  The start of a group is
    [Number] of the last character of the parent's token followed by
    the character 1: ten times the last digit of the parent's index,
    plus one, for each of the sixteen tokens.  It is no offset from the
    parent's index: under [rcs-item-5] the start is 51 and the first
    folder of the group gets [rcs-item-5] again, the class of its
    parent; [rcs-item-12] starts where [rcs-item-2] does. *)
Theorem group_start_concatenates :
  Forall (λ k, new_rcs_index (rcs_item k) = JInt (10 * (k mod 10) + 1)) (seqZ 1 16) ∧
  new_rcs_index "rcs-item-5" = JInt 51 ∧
  new_rcs_index "rcs-item-12" = new_rcs_index "rcs-item-2" ∧
  (let d := (@setFolderStyling Examples.codeunit_host Examples.five_vault
               Examples.five_settings Examples.five_document).1 in
   Examples.classes_at d 9 = ["tree-item"; "nav-folder"; "rcs-item-5"] ∧
   Examples.classes_at d 12 = ["tree-item"; "nav-folder"; "rcs-item-5"; "rcs-sub-item"]).
Proof.
  split_and!; [|reflexivity|reflexivity|by vm_compute].
  apply Forall_forall. intros k Hk. apply elem_of_seqZ in Hk.
  assert (k ∈ [1; 2; 3; 4; 5; 6; 7; 8; 9; 10; 11; 12; 13; 14; 15; 16]%Z) as Hcases.
  { assert (0 ≤ k - 1 < 16)%Z as Hr by lia.
    rewrite !elem_of_cons. lia. }
  rewrite !elem_of_cons, elem_of_nil in Hcases.
  repeat (destruct Hcases as [->|Hcases]; [reflexivity|]). done.
Qed.

End FolderStylingFacts.

(** ** The mutation watcher *)

Module ObserverFacts.
Import Observer.

#[local] Open Scope Z_scope.

Lemma due_by_singleton t s handle due :
  timers s = {[ handle := due ]} →
  due_by t s = if decide (due ≤ t) then [due] else [].
Proof.
  intros Hs. unfold due_by. rewrite Hs, map_to_list_singleton. simpl.
  rewrite filter_cons, filter_nil. by case_decide.
Qed.

(** Time passing keeps the handle and the observer. *)
Lemma advance_fields t s :
  now (advance t s) = Z.max (now s) t ∧
  next_handle (advance t s) = next_handle s ∧
  mutationTimeout (advance t s) = mutationTimeout s ∧
  observing (advance t s) = observing s.
Proof. done. Qed.

Lemma advance_at_most_one_pending t s :
  at_most_one_pending s → at_most_one_pending (advance t s).
Proof.
  intros [Hs|(handle & due & Hs & Hm)]; unfold at_most_one_pending; simpl.
  - left. by rewrite Hs, map_filter_empty.
  - rewrite Hs, map_filter_singleton. case_decide; [right|left]; eauto.
Qed.

Lemma advance_not_due t s handle due :
  timers s = {[ handle := due ]} → t < due →
  timers (advance t s) = {[ handle := due ]} ∧ runs (advance t s) = runs s.
Proof.
  intros Hs Ht. simpl. rewrite (due_by_singleton _ _ _ _ Hs), Hs, map_filter_singleton.
  simpl. rewrite decide_True by done. rewrite decide_False by lia.
  by rewrite app_nil_r.
Qed.

Lemma advance_due t s handle due :
  timers s = {[ handle := due ]} → due ≤ t →
  timers (advance t s) = ∅ ∧ runs (advance t s) = runs s ++ [due].
Proof.
  intros Hs Ht. simpl. rewrite (due_by_singleton _ _ _ _ Hs), Hs, map_filter_singleton.
  simpl. rewrite decide_False by lia. by rewrite decide_True by done.
Qed.

(** The callback leaves one pending timer, the new one: the one it
    found, if any, is cancelled. *)
Lemma on_mutations_arms s :
  at_most_one_pending s →
  timers (on_mutations s) = {[ next_handle s := now s + 200 ]} ∧
  mutationTimeout (on_mutations s) = Some (next_handle s) ∧
  now (on_mutations s) = now s ∧
  observing (on_mutations s) = observing s ∧
  runs (on_mutations s) = runs s.
Proof.
  intros [Hs|(handle & due & Hs & Hm)]; unfold on_mutations.
  - destruct (mutationTimeout s) as [stale|]; simpl; rewrite Hs;
      rewrite ?delete_empty; by rewrite insert_empty.
  - rewrite Hm. simpl. rewrite Hs, delete_singleton_eq. by rewrite insert_empty.
Qed.

Lemma on_mutations_at_most_one_pending s :
  at_most_one_pending s → at_most_one_pending (on_mutations s).
Proof.
  intros Hs. destruct (on_mutations_arms s Hs) as (Ht & Hm & _).
  right. eauto.
Qed.

(** A mutation, whatever was pending, leaves one timer, due 200ms
    later. *)
Lemma mutation_arms s t :
  observing s = true → at_most_one_pending s → now s ≤ t →
  timers (mutation t s) = {[ next_handle s := t + 200 ]} ∧
  mutationTimeout (mutation t s) = Some (next_handle s) ∧
  now (mutation t s) = t ∧
  observing (mutation t s) = true ∧
  runs (mutation t s) = runs (advance t s).
Proof.
  intros Hobs Hs Ht. unfold mutation.
  destruct (advance_fields t s) as (Hnow & Hnext & _ & Hobs').
  rewrite Hobs', Hobs.
  destruct (on_mutations_arms (advance t s) (advance_at_most_one_pending t s Hs))
    as (Htimers & Hm & Hnow' & Hobs'' & Hruns).
  rewrite Htimers, Hm, Hnow', Hobs'', Hruns, Hnext, Hnow, Hobs', Hobs.
  by rewrite Z.max_r by lia.
Qed.

Lemma mutation_at_most_one_pending s t :
  at_most_one_pending s → at_most_one_pending (mutation t s).
Proof.
  intros Hs. unfold mutation.
  destruct (observing (advance t s)).
  - by apply on_mutations_at_most_one_pending, advance_at_most_one_pending.
  - by apply advance_at_most_one_pending.
Qed.

(** Every state the watcher can reach has at most one pending timer. *)
Lemma reachable_at_most_one_pending t0 :
  at_most_one_pending (initial t0) ∧
  (∀ s target, at_most_one_pending s →
     at_most_one_pending (registerFileTreeObserver target s)) ∧
  (∀ s t, at_most_one_pending s → at_most_one_pending (mutation t s)) ∧
  (∀ s t, at_most_one_pending s → at_most_one_pending (advance t s)).
Proof.
  split_and!.
  - by left.
  - by intros s target Hs.
  - intros s t. apply mutation_at_most_one_pending.
  - intros s t. apply advance_at_most_one_pending.
Qed.

(** Within a burst nothing runs: each mutation replaces the pending
    timer by one due 200ms after itself. *)
Lemma deliver_burst ts s t handle :
  observing s = true → now s = t →
  timers s = {[ handle := t + 200 ]} → mutationTimeout s = Some handle →
  burst_from t ts = true →
  ∃ handle',
    timers (deliver ts s) = {[ handle' := default t (last ts) + 200 ]} ∧
    mutationTimeout (deliver ts s) = Some handle' ∧
    runs (deliver ts s) = runs s.
Proof.
  revert s t handle. induction ts as [|t' ts IH]; intros s t handle Hobs Hnow Hs Hm Hburst.
  - exists handle. by simpl.
  - simpl in Hburst. apply andb_true_iff in Hburst as [Ht' Hburst].
    apply bool_decide_eq_true_1 in Ht'.
    assert (at_most_one_pending s) as Hinv by (right; eauto).
    destruct (mutation_arms s t' Hobs Hinv) as (Hs' & Hm' & Hnow' & Hobs' & Hruns');
      [lia|].
    destruct (advance_not_due t' s handle (t + 200) Hs) as [_ Hsame]; [lia|].
    destruct (IH (mutation t' s) t' (next_handle s) Hobs' Hnow' Hs' Hm' Hburst)
      as (handle' & Hfinal & Hmfinal & Hrunsfinal).
    exists handle'. simpl deliver. rewrite Hfinal, Hmfinal, Hrunsfinal, Hruns', Hsame.
    split_and!; try done. f_equal. f_equal.
    rewrite last_cons. by destruct (last ts).
Qed.

(** C5.  In any state the watcher can reach, with the observer
    connected: a mutation leaves its own timer as the only pending one,
    what was pending having run or been cancelled; a burst of mutations,
    each less than 200ms after the one before, runs nothing while it
    lasts beyond what was due before it began, and leaves one pending
    timer, due 200ms after its last mutation; once that time has come,
    [setFolderStyling] has been run again exactly once for the burst, at
    that time, after every mutation of the burst, and nothing is
    pending. *)
Theorem debounced_rerun s t0 ts T :
  observing s = true →
  at_most_one_pending s →
  now s ≤ t0 →
  burst_from t0 ts = true →
  default t0 (last ts) + 200 ≤ T →
  timers (mutation t0 s) = {[ next_handle s := t0 + 200 ]} ∧
  (∃ handle, timers (deliver (t0 :: ts) s) = {[ handle := default t0 (last ts) + 200 ]}) ∧
  runs (deliver (t0 :: ts) s) = runs (advance t0 s) ∧
  runs (advance T (deliver (t0 :: ts) s))
    = runs (advance t0 s) ++ [default t0 (last ts) + 200] ∧
  timers (advance T (deliver (t0 :: ts) s)) = ∅ ∧
  Forall (λ t, t < default t0 (last ts) + 200) (t0 :: ts).
Proof.
  intros Hobs Hinv Hnow Hburst HT.
  destruct (mutation_arms s t0 Hobs Hinv Hnow) as (Hs' & Hm' & Hnow' & Hobs' & Hruns').
  destruct (deliver_burst ts (mutation t0 s) t0 (next_handle s) Hobs' Hnow' Hs' Hm' Hburst)
    as (handle & Htimers & Hm & Hruns).
  change (deliver (t0 :: ts) s) with (deliver ts (mutation t0 s)).
  destruct (advance_due T (deliver ts (mutation t0 s)) handle _ Htimers HT)
    as [Hidle Hrun].
  rewrite Hrun, Hruns, Hruns'. split_and!; try done; [by eauto|].
  clear -Hburst. revert t0 Hburst. induction ts as [|t' ts IH]; intros t0 Hburst.
  - constructor; [simpl; lia|constructor].
  - simpl in Hburst. apply andb_true_iff in Hburst as [Ht' Hburst].
    apply bool_decide_eq_true_1 in Ht'. specialize (IH t' Hburst).
    assert (default t0 (last (t' :: ts)) = default t' (last ts)) as ->.
    { rewrite last_cons. by destruct (last ts). }
    constructor; [|done]. apply Forall_cons in IH as [Hlt _]. lia.
Qed.

(** The first mutation after loading, followed by two more within the
    delay: one run, 200ms after the third. *)
Lemma debounced_rerun_witness :
  runs (advance 1000 (deliver [100; 250; 400]
                        (registerFileTreeObserver true (initial 0)))) = [600].
Proof.
  destruct (debounced_rerun (registerFileTreeObserver true (initial 0))
              100 [250; 400] 1000) as (_ & _ & _ & Hruns & _).
  - reflexivity.
  - by left.
  - simpl. lia.
  - reflexivity.
  - simpl. lia.
  - exact Hruns.
Defined.

End ObserverFacts.

(** ** The claims on sample data *)

Module ColorSchemeExamples.
Import Dom Settings ColorScheme ColorSchemeFacts Examples.

(** The sample scheme on the sample root: three variables, in the order
    of the scheme; the older fifth variable stays. *)
Lemma setColorScheme_variables_witness :
  ∃ root',
    @setColorScheme sample_color_host DEFAULT_SETTINGS sample_root = Some root' ∧
    style root' !! rcs_color 1 = Some "#e6194b" ∧
    style root' !! rcs_color 3 = Some "#ffe119" ∧
    style root' !! rcs_color 5 = Some "#000000".
Proof.
  destruct (@setColorScheme_variables sample_color_host DEFAULT_SETTINGS sample_root
              ["#e6194b"; "#3cb44b"; "#ffe119"]) as (root' & Hrun & Hset & Hother).
  - reflexivity.
  - repeat constructor; discriminate.
  - exists root'. split; [exact Hrun|]. split_and!.
    + destruct (Hset 1) as [_ ->]; [simpl; lia|reflexivity].
    + destruct (Hset 3) as [_ ->]; [simpl; lia|reflexivity].
    + rewrite Hother; [reflexivity|].
      intros k Hk Heq. apply (inj rcs_color) in Heq. simpl in Hk. lia.
Defined.

(** The sample root has the attribute; with the default settings it
    loses it, and gets it back when the setting is toggled. *)
Lemma setColorScheme_contrast_witness :
  hasAttribute "data-rcs-a11y" sample_root = true ∧
  hasAttribute "data-rcs-a11y" sample_restyled_root = false ∧
  ∃ root'',
    @setColorScheme sample_color_host (toggle_increaseContrast DEFAULT_SETTINGS)
      sample_restyled_root = Some root'' ∧
    hasAttribute "data-rcs-a11y" root'' = true.
Proof.
  destruct (@setColorScheme_contrast sample_color_host DEFAULT_SETTINGS sample_root
              sample_restyled_root) as (_ & Hattr & root'' & Hrun' & Hattr' & _).
  - reflexivity.
  - split; [reflexivity|]. split; [exact Hattr|]. by exists root''.
Defined.

End ColorSchemeExamples.

Module FolderStylingExamples.
Import Js Dom Settings FolderStyling FolderStylingFacts Examples.

(** In the sample explorer [b] sorts second and its item, at position
    8, gets the second class. *)
Lemma top_level_class_index_witness :
  ∃ e', (@setFolderStyling codeunit_host (sample_vault ["b"; ".obsidian"; "a"] ["a/x"; "a/y"])
           sample_settings sample_document).1 !! 8%nat = Some e' ∧
        "rcs-item-2" ∈ classList e'.
Proof.
  destruct (@top_level_class_index codeunit_host
              (sample_vault ["b"; ".obsidian"; "a"] ["a/x"; "a/y"])
              sample_settings sample_document ["b"; ".obsidian"; "a"] 1 "b")
    as (_ & _ & _ & _ & _ & Hclass).
  - reflexivity.
  - reflexivity.
  - refine (Hclass _ 8%nat _); [apply (bool_decide_unpack _)|]; reflexivity.
Defined.

(** The sample explorer after the top-level pass. *)
Lemma sub_group_class_from_parent_token_witness :
  ∃ d' e',
    @style_sub_folder codeunit_host (sample_vault ["b"; ".obsidian"; "a"] ["a/x"; "a/y"]) "a"
      (style_top 0 ["a"; "b"] sample_document) = Some d' ∧
    d' !! 6%nat = Some e' ∧
    "rcs-item-14" ∈ classList e' ∧
    "rcs-sub-item" ∈ classList e'.
Proof.
  apply (@sub_group_class_from_parent_token codeunit_host
           (sample_vault ["b"; ".obsidian"; "a"] ["a/x"; "a/y"]) "a"
           (style_top 0 ["a"; "b"] sample_document)
           ["a/x"; "a/y"] "rcs-item-1" 1 "a/y" 6%nat);
    first [reflexivity | apply (bool_decide_unpack _); reflexivity].
Defined.

(** C2, against the claim.  In one run over the sample explorer the
    first folder of the group of [a] gets [rcs-item-13] and the first
    folder of the group of [b] gets [rcs-item-7]: [a] is first in the
    top-level cycle and [b] second, and the first class of a group
    changes with the place of its parent. *)
Lemma first_sub_folder_follows_parent :
  let d := (@setFolderStyling codeunit_host
              (sample_vault ["b"; ".obsidian"; "a"] ["a/x"; "a/y"])
              sample_settings sample_document).1 in
  classes_at d 1 = ["tree-item"; "nav-folder"; "rcs-item-1"] ∧
  classes_at d 8 = ["tree-item"; "nav-folder"; "rcs-item-2"] ∧
  classes_at d 4 = ["tree-item"; "nav-folder"; "rcs-item-13"; "rcs-sub-item"] ∧
  classes_at d 11 = ["tree-item"; "nav-folder"; "rcs-item-7"; "rcs-sub-item"] ∧
  @sub_class_token codeunit_host (new_rcs_index "rcs-item-1") 0
    ≠ @sub_class_token codeunit_host (new_rcs_index "rcs-item-2") 0.
Proof. by vm_compute. Qed.

Lemma codeunit_before_trans a b c :
  String.compare a b ≠ Gt → String.compare b c ≠ Gt → String.compare a c ≠ Gt.
Proof.
  assert (∀ x y, String.compare x y ≠ Gt ↔ String.le x y) as Hle.
  { intros x y. unfold String.le, String.leb.
    destruct (String.compare x y); simpl; naive_solver. }
  rewrite !Hle. apply transitivity.
Qed.

(** The sample root listed in two orders: the same run. *)
Lemma top_level_order_independent_witness :
  @setFolderStyling codeunit_host (sample_vault ["b"; ".obsidian"; "a"] ["a/x"; "a/y"])
    sample_settings sample_document
  = @setFolderStyling codeunit_host (sample_vault ["a"; "b"; ".obsidian"] ["a/x"; "a/y"])
      sample_settings sample_document.
Proof.
  apply (@top_level_order_independent codeunit_host
           (sample_vault ["b"; ".obsidian"; "a"] ["a/x"; "a/y"])
           (sample_vault ["a"; "b"; ".obsidian"] ["a/x"; "a/y"])
           sample_settings sample_document
           ["b"; ".obsidian"; "a"] ["a"; "b"; ".obsidian"]).
  - apply String.compare_antisym.
  - apply codeunit_before_trans.
  - intros a b _ _. apply String.compare_eq_iff.
  - apply (bool_decide_unpack _). reflexivity.
  - reflexivity.
  - reflexivity.
  - intros sub_folder Hin. simpl in Hin.
    rewrite !elem_of_cons, elem_of_nil in Hin.
    destruct Hin as [->|[->|[]]]; reflexivity.
  - reflexivity.
Defined.

(** C4, against the claim.  The folders of a designated path are not
    sorted: given [a/x] before [a/y] the item of [a/x] gets
    [rcs-item-13], given [a/y] before [a/x] it gets [rcs-item-14].  And
    the sort leaves top-level folders that compare equal in the order of
    the listing: with a numeric collation [foo1] and [foo01] compare
    equal, and the item of [foo1] gets [rcs-item-1] or [rcs-item-2] as
    the adapter lists it first or second. *)
Lemma enumeration_order_matters :
  (let run a_listing :=
     (@setFolderStyling codeunit_host (sample_vault ["b"; ".obsidian"; "a"] a_listing)
        sample_settings sample_document).1 in
   ["a/x"; "a/y"] ≡ₚ ["a/y"; "a/x"] ∧
   classes_at (run ["a/x"; "a/y"]) 4
     = ["tree-item"; "nav-folder"; "rcs-item-13"; "rcs-sub-item"] ∧
   classes_at (run ["a/y"; "a/x"]) 4
     = ["tree-item"; "nav-folder"; "rcs-item-14"; "rcs-sub-item"]) ∧
  (let run root_listing :=
     (@setFolderStyling numeric_host (numbered_vault root_listing)
        no_sub_folders numbered_document).1 in
   ["foo1"; "foo01"] ≡ₚ ["foo01"; "foo1"] ∧
   numeric_compare "foo1" "foo01" = Eq ∧
   classes_at (run ["foo1"; "foo01"]) 1 = ["tree-item"; "nav-folder"; "rcs-item-1"] ∧
   classes_at (run ["foo01"; "foo1"]) 1 = ["tree-item"; "nav-folder"; "rcs-item-2"]).
Proof.
  split; (split; [apply perm_swap|by vm_compute]).
Qed.

(** A run over the sample explorer: the item of [b/z], at position 11,
    gets classes of the plugin only. *)
Lemma setFolderStyling_frame_witness :
  ∃ e' added,
    (@setFolderStyling codeunit_host (sample_vault ["b"; ".obsidian"; "a"] ["a/x"; "a/y"])
       sample_settings sample_document).1 !! 11%nat = Some e' ∧
    classList e' = ["tree-item"; "nav-folder"] ++ added ∧
    Forall (λ token, token = "rcs-sub-item" ∨
                     ∃ k, (1 ≤ k ≤ 16)%Z ∧ token = rcs_item k) added.
Proof.
  destruct (@setFolderStyling_frame codeunit_host
              (sample_vault ["b"; ".obsidian"; "a"] ["a/x"; "a/y"])
              sample_settings sample_document) as (_ & Hframe & _).
  destruct (Hframe 11%nat (tree_item 10) eq_refl)
    as (e' & added & He' & _ & _ & _ & Hc & Hadded).
  exists e', added. split; [exact He'|]. split; [exact Hc|].
  apply Hadded. apply (bool_decide_unpack _). reflexivity.
Defined.


End FolderStylingExamples.

(** ** [resetFolderStyling] and repeated runs of the indexer *)

Module FolderResetFacts.
Import Js Dom Settings FolderStyling FolderReset DomFacts FolderStylingFacts.

Lemma startsWith_includes s p : startsWith s p = true → includes s p = true.
Proof. intros Hs. destruct s; cbn [includes]; by rewrite Hs. Qed.

Lemma with_classList_same f e : f (classList e) = classList e → with_classList f e = e.
Proof. intros Hf. destruct e. unfold with_classList. simpl in *. by rewrite Hf. Qed.

Lemma filter_without_rcs (l : list string) :
  existsb (λ cls, includes cls "rcs-") l = false →
  filter (λ cls, startsWith cls "rcs-" = false) l = l.
Proof.
  induction l as [|cls l IH]; [done|]. simpl.
  intros [Hcls Hl]%orb_false_iff.
  rewrite filter_cons_True, IH; [done|done|].
  destruct (startsWith cls "rcs-") eqn:Hs; [|done].
  apply startsWith_includes in Hs. congruence.
Qed.

(** One item of the loop of [resetFolderStyling]. *)
Lemma reset_item_tree item :
  "tree-item" ∈ classList item →
  (if selected item then remove_rcs_classes item else item) = remove_rcs_classes item.
Proof.
  intros Htree. unfold selected. rewrite bool_decide_eq_true_2 by done. simpl.
  destruct (existsb _ _) eqn:Hnone; [done|].
  symmetry. by apply with_classList_same, filter_without_rcs.
Qed.

Lemma reset_item_other item :
  "tree-item" ∉ classList item →
  (if selected item then remove_rcs_classes item else item) = item.
Proof. intros Htree. unfold selected. by rewrite bool_decide_eq_false_2. Qed.






Lemma rcs_item_starts k : startsWith (rcs_item k) "rcs-" = true.
Proof. reflexivity. Qed.

Lemma filter_without_rcs_again (l : list string) :
  filter (λ cls, startsWith cls "rcs-" = false)
    (filter (λ cls, startsWith cls "rcs-" = false) l)
  = filter (λ cls, startsWith cls "rcs-" = false) l.
Proof.
  induction l as [|cls l IH]; [done|].
  destruct (startsWith cls "rcs-") eqn:Hcls.
  - rewrite !filter_cons_False by (by rewrite Hcls). done.
  - rewrite !filter_cons_True by done. by rewrite IH.
Qed.

Lemma reset_item_again item :
  let reset_item := λ item, if selected item then remove_rcs_classes item else item in
  reset_item (reset_item item) = reset_item item.
Proof.
  simpl. destruct (decide ("tree-item" ∈ classList item)) as [Htree|Htree].
  - rewrite (reset_item_tree item Htree). rewrite reset_item_tree.
    + unfold remove_rcs_classes, with_classList. simpl.
      by rewrite filter_without_rcs_again.
    + simpl. apply list_elem_of_filter. by split.
  - by rewrite !(reset_item_other item Htree).
Qed.

(** X1.  [resetFolderStyling] keeps every element, with its parent, its
    attributes and its style.  A tree item comes out with the classes
    that do not start with [rcs-], in the order they had, and none that
    does; an element that is no tree item comes out as it was.  A second
    reset changes nothing. *)
Theorem resetFolderStyling_effect d :
  length (resetFolderStyling d) = length d ∧
  resetFolderStyling (resetFolderStyling d) = resetFolderStyling d ∧
  ∀ n e, d !! n = Some e →
    ∃ e', resetFolderStyling d !! n = Some e' ∧
      parentElement e' = parentElement e ∧
      attributes e' = attributes e ∧
      style e' = style e ∧
      ("tree-item" ∈ classList e →
         classList e' = filter (λ cls, startsWith cls "rcs-" = false) (classList e)) ∧
      ("tree-item" ∉ classList e → e' = e).
Proof.
  split; [apply length_fmap|]. split.
  - unfold resetFolderStyling. rewrite <-list_fmap_compose.
    apply list_fmap_ext. intros _ item _. apply reset_item_again.
  - intros n e Hn. unfold resetFolderStyling. rewrite list_lookup_fmap, Hn. simpl.
    eexists. split; [done|].
    destruct (decide ("tree-item" ∈ classList e)) as [Htree|Htree].
    + rewrite (reset_item_tree e Htree). by split_and!.
    + rewrite (reset_item_other e Htree). by split_and!.
Qed.

Section with_host.
Context `{Host}.

Lemma sub_class_token_starts n j : startsWith (sub_class_token n j) "rcs-" = true.
Proof. by destruct n. Qed.






(** *** Runs on a document that was styled before *)

Lemma setFolderStyling_adds_rcs v settings d :
  annotated (λ token, startsWith token "rcs-" = true) d (setFolderStyling v settings d).1.
Proof.
  unfold setFolderStyling.
  destruct (adapter_list v "/") as [listing|]; [|apply annotated_refl].
  eapply annotated_trans.
  - apply style_top_annotated. intros i. apply rcs_item_starts.
  - apply (style_sub_folders_annotated _ (λ _, True)); try done.
    intros. apply sub_class_token_starts.
Qed.

Lemma setFolderStyling_marks v settings d listing i folder p :
  adapter_list v "/" = Some listing →
  top_folders listing !! i = Some folder →
  fst <$> parent_of_data_path d folder = Some p →
  ∃ e', (setFolderStyling v settings d).1 !! p = Some e' ∧
        rcs_item (classIndex i) ∈ classList e'.
Proof.
  intros Hlisting Hi Hp. unfold setFolderStyling. rewrite Hlisting.
  destruct (style_top_marks (top_folders listing) 0 d i folder p Hi Hp)
    as (e1 & He1 & Htoken).
  eapply annotated_keeps_class; [|exact He1|exact Htoken].
  apply style_sub_folders_only_annotates.
Qed.










(** *** Properties *)


(** X3.  [resetFolderStyling] selects tree items only: when the parent
    of the node of a top-level folder the run gets to (the paths of the
    folders up to it can stand in the selector) has not the class
    [tree-item], the class the run gave it is still there after the
    reset. *)
Theorem class_outside_tree_item_survives_reset v settings d listing i folder p pe :
  adapter_list v "/" = Some listing →
  top_folders listing !! i = Some folder →
  Forall selector_safe (take (S i) (top_folders listing)) →
  parent_of_data_path d folder = Some (p, pe) →
  "tree-item" ∉ classList pe →
  ∃ e', resetFolderStyling (setFolderStyling v settings d).1 !! p = Some e' ∧
        rcs_item (classIndex i) ∈ classList e'.
Proof.
  intros Hlisting Hi _ Hq Htree.
  destruct (setFolderStyling_marks v settings d listing i folder p Hlisting Hi)
    as (e' & He' & Htoken); [by rewrite Hq|].
  apply parent_of_data_path_lookup in Hq.
  destruct (annotated_lookup _ _ _ _ _ (setFolderStyling_adds_rcs v settings d) Hq)
    as (e'' & He'' & _ & _ & _ & added & Hc & Hadded).
  simplify_eq. exists e'. split; [|done].
  unfold resetFolderStyling. rewrite list_lookup_fmap, He'. simpl. f_equal.
  apply reset_item_other. rewrite Hc. intros [Hin|Hin]%elem_of_app; [done|].
  rewrite Forall_forall in Hadded. by specialize (Hadded _ Hin).
Qed.

(** X4.  A run does not take back what an earlier run gave: when the
    root listing changes between two runs, a folder that moves from
    position [i1] to position [i2] of the sorted listing, and that both
    runs get to (the paths of the folders up to it can stand in the
    selector), has both classes after the second run. *)
Theorem earlier_class_stays v1 v2 settings1 settings2 d listing1 listing2 i1 i2 folder p :
  adapter_list v1 "/" = Some listing1 →
  top_folders listing1 !! i1 = Some folder →
  Forall selector_safe (take (S i1) (top_folders listing1)) →
  adapter_list v2 "/" = Some listing2 →
  top_folders listing2 !! i2 = Some folder →
  Forall selector_safe (take (S i2) (top_folders listing2)) →
  fst <$> parent_of_data_path d folder = Some p →
  ∃ e', (setFolderStyling v2 settings2 (setFolderStyling v1 settings1 d).1).1 !! p
          = Some e' ∧
        rcs_item (classIndex i1) ∈ classList e' ∧
        rcs_item (classIndex i2) ∈ classList e'.
Proof.
  intros Hl1 Hi1 _ Hl2 Hi2 _ Hp.
  destruct (setFolderStyling_marks v1 settings1 d listing1 i1 folder p Hl1 Hi1 Hp)
    as (e1 & He1 & Htoken1).
  pose proof (setFolderStyling_annotated v1 settings1 d) as Hd1.
  destruct (setFolderStyling_marks v2 settings2 (setFolderStyling v1 settings1 d).1
              listing2 i2 folder p Hl2 Hi2) as (e2 & He2 & Htoken2).
  { rewrite <-Hp. by eapply annotated_parent_of_data_path. }
  destruct (annotated_keeps_class _ _ _ _ _ _
              (setFolderStyling_annotated v2 settings2 _) He1 Htoken1)
    as (e2' & He2' & Htoken1').
  simplify_eq. by exists e2.
Qed.


(** X6.  When the adapter rejects the listing of a designated path, the
    loop over the designated paths ends there: the promise is rejected
    and the paths after it are not looked at, whatever they are; the
    document is as the paths before it left it. *)
Theorem rejected_listing_ends_the_loop v before_it sub_folder after_it d :
  adapter_list v sub_folder = None →
  (style_sub_folders v before_it d).2 = true →
  style_sub_folders v (before_it ++ sub_folder :: after_it) d
  = ((style_sub_folders v before_it d).1, false).
Proof.
  intros Hreject. revert d. induction before_it as [|g rest IH]; intros d Hbefore; simpl.
  - unfold style_sub_folder. by rewrite Hreject.
  - simpl in Hbefore. destruct (style_sub_folder v g d) as [d'|]; [|done].
    by apply IH.
Qed.

End with_host.
End FolderResetFacts.

(** ** More on the groups of designated paths *)

Module FolderStylingMore.
Import Js Dom Settings FolderStyling DomFacts FolderStylingFacts.

Lemma includes_cons_false c s p :
  includes (String c s) p = false → startsWith (String c s) p = false ∧ includes s p = false.
Proof. cbn [includes]. apply orb_false_iff. Qed.

Lemma split_head_whole top :
  includes top "/" = false → split_head "/" top = top.
Proof.
  induction top as [|c top IH]; [done|].
  intros [Hc Htop]%includes_cons_false.
  cbn [startsWith] in Hc. cbn [split_head String.append].
  rewrite Ascii.eqb_sym. destruct (Ascii.eqb "/" c); [by destruct top|].
  by rewrite IH.
Qed.

Lemma split_head_first_segment top rest :
  includes top "/" = false → split_head "/" (top +:+ "/" +:+ rest) = top.
Proof.
  induction top as [|c top IH]; [done|].
  intros [Hc Htop]%includes_cons_false.
  cbn [startsWith] in Hc.
  change (String c top +:+ "/" +:+ rest) with (String c (top +:+ "/" +:+ rest)).
  cbn [split_head].
  rewrite Ascii.eqb_sym. destruct (Ascii.eqb "/" c); [by destruct top|].
  by rewrite IH.
Qed.

Section with_host.
Context `{Host}.

(** X7.  When the token a group starts from is one of [rcs-item-1] to
    [rcs-item-16], the folders of the group get indices between 1 and
    16 that go up by one from each folder to the next, 16 being followed
    by 1, and come back after sixteen folders. *)
Theorem sub_group_indices_cycle token j :
  token ∈ index_tokens →
  ∃ k, (1 ≤ k ≤ 16)%Z ∧
       sub_class_token (new_rcs_index token) j = rcs_item k ∧
       sub_class_token (new_rcs_index token) (j + 1) = rcs_item (k mod 16 + 1) ∧
       sub_class_token (new_rcs_index token) (j + 16)
         = sub_class_token (new_rcs_index token) j.
Proof.
  intros (_ & n & -> & Hn)%index_token_start. simpl.
  rewrite !Z.rem_mod_nonneg by lia.
  pose proof (Z.mod_pos_bound (n + 1 + Z.of_nat j) 16) as Hbound.
  exists ((n + 1 + Z.of_nat j) mod 16 + 1)%Z. split_and!; [lia|lia|done| |].
  - f_equal. f_equal. rewrite Nat2Z.inj_add.
    replace (n + 1 + (Z.of_nat j + Z.of_nat 1))%Z with ((n + 1 + Z.of_nat j) + 1)%Z by lia.
    by rewrite <-Zplus_mod_idemp_l.
  - f_equal. f_equal. rewrite Nat2Z.inj_add.
    replace (n + 1 + (Z.of_nat j + Z.of_nat 16))%Z
      with ((n + 1 + Z.of_nat j) + 1 * 16)%Z by lia.
    by rewrite Z.mod_add by lia.
Qed.

End with_host.

(** X8.  The class a group starts from is read on the tree item of the
    first segment of the designated path: a path below a top-level
    folder starts from the same token as that folder, however deep it
    lies. *)
Theorem group_start_of_nested_path d top rest :
  includes top "/" = false →
  group_parent_token d (top +:+ "/" +:+ rest) = group_parent_token d top.
Proof.
  intros Htop. unfold group_parent_token.
  by rewrite split_head_first_segment, split_head_whole.
Qed.

End FolderStylingMore.

(** ** Saving and loading the settings *)

Module SettingsMore.
Import Settings SettingsFacts.

Lemma foldl_object_set_proto kvs (target : object) :
  target !! "__proto__" = None → foldl object_set target kvs !! "__proto__" = None.
Proof.
  revert target. induction kvs as [|kv kvs IH]; intros target Hnone; [done|].
  simpl. apply IH. unfold object_set. case_decide; [done|].
  by rewrite lookup_insert_ne.
Qed.

Lemma loadSettings_no_proto stored : loadSettings stored !! "__proto__" = None.
Proof.
  rewrite loadSettings_unfold.
  destruct stored as [[]|]; simpl; try done; by apply foldl_object_set_proto.
Qed.

Lemma foldl_object_set_member kvs (target : object) k x :
  NoDup kvs.*1 → (k, x) ∈ kvs → k ≠ "__proto__" →
  foldl object_set target kvs !! k = Some x.
Proof.
  revert target. induction kvs as [|kv kvs IH]; intros target Hnodup Hin Hk.
  { by apply elem_of_nil in Hin. }
  rewrite fmap_cons in Hnodup. apply NoDup_cons in Hnodup as [Hfresh Hnodup].
  simpl. apply elem_of_cons in Hin as [<-|Hin].
  - rewrite foldl_object_set_missing by done. unfold object_set. simpl.
    rewrite decide_False by done. apply lookup_insert_eq.
  - by apply IH.
Qed.

Lemma default_other k :
  k ∉ setting_keys → settings_object DEFAULT_SETTINGS !! k = None.
Proof.
  unfold setting_keys. rewrite !not_elem_of_cons. intros (? & ? & ? & _).
  unfold settings_object. simpl. by rewrite !lookup_insert_ne, lookup_empty.
Qed.

Lemma loadSettings_members kvs :
  NoDup kvs.*1 → "__proto__" ∉ kvs.*1 →
  (∀ k, k ∈ setting_keys → k ∈ kvs.*1) →
  loadSettings (Some (JObject kvs)) = list_to_map kvs.
Proof.
  intros Hnodup Hproto Hkeys. apply map_eq. intros k.
  rewrite loadSettings_unfold. simpl.
  destruct (list_to_map kvs !! k) as [x|] eqn:Hk.
  - apply elem_of_list_to_map in Hk; [|done].
    apply foldl_object_set_member; [done..|].
    intros ->. apply Hproto. apply list_elem_of_fmap. by exists ("__proto__", x).
  - apply not_elem_of_list_to_map in Hk.
    rewrite foldl_object_set_missing by done. apply default_other.
    intros Hin. by apply Hk, Hkeys.
Qed.

(** X9.  What is saved loads back: an object that has the three fields
    of the interface, written to the data file and read by
    [loadSettings], is that object again, and no default overrides a
    field of it; so it is for the settings [loadSettings] itself gave,
    and for a settings record. *)
Theorem saved_settings_load_back (o : object) stored s :
  ((∀ k, k ∈ setting_keys → is_Some (o !! k)) →
   o !! "__proto__" = None →
   loadSettings (Some (JObject (map_to_list o))) = o) ∧
  loadSettings (Some (JObject (map_to_list (loadSettings stored)))) = loadSettings stored ∧
  loadSettings (Some (JObject (settings_members s))) = settings_object s.
Proof.
  assert (∀ o : object,
            (∀ k, k ∈ setting_keys → is_Some (o !! k)) → o !! "__proto__" = None →
            loadSettings (Some (JObject (map_to_list o))) = o) as Hback.
  { intros o' Hkeys Hproto. rewrite loadSettings_members.
    - apply list_to_map_to_list.
    - apply NoDup_fst_map_to_list.
    - intros ([k x] & Hk & Hin)%list_elem_of_fmap. simpl in Hk. subst k.
      apply elem_of_map_to_list in Hin. congruence.
    - intros k [x Hx]%Hkeys. apply list_elem_of_fmap. exists (k, x).
      split; [done|]. by apply elem_of_map_to_list. }
  split_and!; [apply Hback| |].
  - apply Hback; [|apply loadSettings_no_proto].
    intros k Hk. rewrite loadSettings_unfold.
    by apply assign_source_is_Some, default_fields_present.
  - apply loadSettings_members.
    + simpl. apply (bool_decide_unpack _). reflexivity.
    + simpl. apply (bool_decide_unpack _). reflexivity.
    + intros k Hk. exact Hk.
Qed.

End SettingsMore.

(** ** The plugin: loading, saving settings, unloading *)

Module LifecycleFacts.
Import Js Dom Settings FolderReset Lifecycle.
Import DomFacts ColorSchemeFacts FolderStylingFacts FolderResetFacts ObserverFacts.



Section with_host.
Context {color_host : ColorScheme.Host} {folder_host : FolderStyling.Host}.
Context (v : FolderStyling.Vault).




Lemma forEach_removeProperty_other index colors root name :
  (∀ i, i < length colors → name ≠ ColorScheme.rcs_color (index + i + 1)) →
  style (forEach_removeProperty index colors root) !! name = style root !! name.
Proof.
  revert index root. induction colors as [|color colors IH]; intros index root Hname; [done|].
  simpl. rewrite IH.
  - simpl. apply lookup_delete_ne. intros <-. apply (Hname 0); [simpl; lia|].
    f_equal. lia.
  - intros i Hi. replace (S index + i + 1) with (index + S i + 1) by lia.
    apply Hname. simpl. lia.
Qed.





(** X11.  With a scheme name the table does not have, [boot] changes
    nothing: no folder is styled and no observer is registered;
    [saveSettings] stores the settings and leaves the page as it was;
    and [onunload] disconnects the observer and cleans nothing.  All
    three end in an error. *)
Theorem unknown_scheme_stops_the_plugin p :
  ColorScheme.schemes !! scheme (settings p) = None →
  boot v p = (p, false) ∧
  saveSettings v p = (saveData p, false) ∧
  (has_observer p = true →
   onunload p
   = (Plugin (settings p) (data p) (page p) true (disconnect (watcher p)), false)).
Proof.
  intros Hs.
  assert (∀ d, on_documentElement (ColorScheme.setColorScheme (settings p)) d = None)
    as Hnone.
  { intros [|root rest]; [done|]. simpl. unfold ColorScheme.setColorScheme.
    by rewrite Hs. }
  split_and!.
  - unfold boot. by rewrite Hnone.
  - unfold saveSettings. simpl. by rewrite Hnone.
  - intros Hobs. unfold onunload. rewrite Hobs. simpl. by rewrite Hs.
Qed.




(** X13.  [setColorScheme] removes no variable: after a change from a
    scheme to a shorter one, the variables beyond the length of the new
    scheme still hold the colours of the old one, and [onunload], which
    removes the variables of the current scheme, leaves them too. *)
Theorem shorter_scheme_leaves_variables s1 s2 colors1 colors2 root root1 root2 k :
  ColorScheme.schemes !! scheme s1 = Some colors1 →
  ColorScheme.schemes !! scheme s2 = Some colors2 →
  Forall (λ color, color ≠ "" ∧ ColorScheme.css_value_ok color = true) colors1 →
  ColorScheme.setColorScheme s1 root = Some root1 →
  ColorScheme.setColorScheme s2 root1 = Some root2 →
  length colors2 < k ≤ length colors1 →
  is_Some (colors1 !! (k - 1)) ∧
  style root2 !! ColorScheme.rcs_color k = colors1 !! (k - 1) ∧
  style (removeAttribute "data-rcs-a11y" (forEach_removeProperty 0 colors2 root2))
    !! ColorScheme.rcs_color k = colors1 !! (k - 1).
Proof.
  intros Hs1 Hs2 Hok Hrun1 Hrun2 Hk.
  unfold ColorScheme.setColorScheme in Hrun1, Hrun2.
  rewrite Hs1 in Hrun1. rewrite Hs2 in Hrun2. simpl in *.
  injection Hrun1 as <-. injection Hrun2 as <-.
  assert (∀ s e, style (if increaseContrast s
                        then setAttribute "data-rcs-a11y" "1" e
                        else removeAttribute "data-rcs-a11y" e) = style e) as Hstyle.
  { intros s e. by destruct (increaseContrast s). }
  destruct (lookup_lt_is_Some_2 colors1 (k - 1)) as [color Hcolor]; [lia|].
  assert (∀ i, i < length colors2 → ColorScheme.rcs_color k ≠ ColorScheme.rcs_color (0 + i + 1))
    as Hother.
  { intros i Hi Heq. apply (inj ColorScheme.rcs_color) in Heq. lia. }
  assert (style (ColorScheme.forEach_color 0 colors1 root) !! ColorScheme.rcs_color k
          = Some color) as Hfirst.
  { pose proof (forEach_color_style_at 0 colors1 root (k - 1) color Hcolor) as Hat.
    replace (0 + (k - 1) + 1) with k in Hat by lia. rewrite Hat.
    rewrite Forall_forall in Hok.
    destruct (Hok color) as [Hne Hvalid]; [by eapply list_elem_of_lookup_2|].
    unfold ColorScheme.property_after. rewrite decide_False by done. by rewrite Hvalid. }
  rewrite Hcolor. split; [by eexists|].
  assert (∀ e, style (removeAttribute "data-rcs-a11y" e) = style e) as Hremove by done.
  split.
  - rewrite Hstyle, forEach_color_style_other by done. by rewrite Hstyle.
  - rewrite ?Hremove. rewrite forEach_removeProperty_other by done.
    rewrite Hstyle, forEach_color_style_other by done. by rewrite Hstyle.
Qed.

Lemma onunload_watcher p :
  has_observer p = true → watcher (onunload p).1 = disconnect (watcher p).
Proof.
  intros Hhas. unfold onunload. rewrite Hhas.
  destruct (ColorScheme.schemes !! scheme _) as [colors|]; [|done].
  by destruct (on_documentElement _ _).
Qed.

(** X14.  [onunload] does not clear the pending timer: when the tree
    changed less than 200ms before, [setFolderStyling] still runs once,
    200ms after that change, on the page [onunload] left, whether
    [onunload] returned or threw for want of the scheme; and no change
    of the tree after [onunload] starts a timer. *)
Theorem pending_run_survives_onunload p t T later :
  has_observer p = true →
  Observer.observing (watcher p) = true →
  Observer.at_most_one_pending (watcher p) →
  (Observer.now (watcher p) ≤ t)%Z →
  (t + 200 ≤ T)%Z →
  let unloaded := (onunload (tree_mutation v t p)).1 in
  Observer.timers (watcher unloaded)
    = {[ Observer.next_handle (watcher p) := (t + 200)%Z ]} ∧
  Observer.runs (watcher (pass_time v T unloaded))
    = Observer.runs (watcher (tree_mutation v t p)) ++ [(t + 200)%Z] ∧
  page (pass_time v T unloaded)
    = (FolderStyling.setFolderStyling v (settings unloaded) (page unloaded)).1 ∧
  Observer.timers (watcher (tree_mutation v later (pass_time v T unloaded))) = ∅.
Proof.
  intros Hhas Hobs Hinv Hnow HT.
  destruct (mutation_arms (watcher p) t Hobs Hinv Hnow)
    as (Htimers & Hm & Hnow' & Hobs' & Hruns).
  assert (watcher (tree_mutation v t p) = Observer.mutation t (watcher p)) as Hwatcher
    by done.
  assert (has_observer (tree_mutation v t p) = true) as Hhas1 by done.
  pose proof (onunload_watcher _ Hhas1) as Hunload.
  generalize dependent (tree_mutation v t p). intros p1 Hwatcher Hhas1 Hunload.
  simpl.
  assert (Observer.timers (watcher (onunload p1).1)
          = {[ Observer.next_handle (watcher p) := (t + 200)%Z ]}) as Htimers1.
  { rewrite Hunload. simpl. by rewrite Hwatcher, Htimers. }
  split; [done|].
  pose proof (due_by_singleton T _ _ _ Htimers1) as Hdue.
  rewrite decide_True in Hdue by done. rewrite !Hdue.
  split_and!.
  - by rewrite Hunload.
  - done.
  - rewrite Hunload. simpl. rewrite Hwatcher, Htimers.
    rewrite !map_filter_singleton.
    rewrite (decide_False (P := (T < _)%Z)) by (simpl; lia).
    by rewrite map_filter_empty.
Qed.










End with_host.
End LifecycleFacts.

(** ** Mutations that are not one burst *)

Module DebounceFacts.
Import Observer Debounce ObserverFacts.

#[local] Open Scope Z_scope.

Lemma deliver_spaced ts s t handle T :
  observing s = true → now s = t →
  timers s = {[ handle := t + 200 ]} → mutationTimeout s = Some handle →
  spaced_from t ts = true →
  default t (last ts) + 200 ≤ T →
  runs (advance T (deliver ts s)) = runs s ++ settled_runs t ts.
Proof.
  revert s t handle. induction ts as [|t' ts IH];
    intros s t handle Hobs Hnow Hs Hm Hspaced HT.
  - simpl in HT. destruct (advance_due T s handle (t + 200) Hs HT) as [_ Hr].
    exact Hr.
  - simpl in Hspaced. apply andb_true_iff in Hspaced as [Ht' Hspaced].
    apply bool_decide_eq_true_1 in Ht' as [Hle Hne].
    assert (at_most_one_pending s) as Hinv by (right; eauto).
    destruct (mutation_arms s t' Hobs Hinv) as (Hs' & Hm' & Hnow' & Hobs' & Hruns');
      [lia|].
    assert (default t (last (t' :: ts)) = default t' (last ts)) as Hlast.
    { rewrite last_cons. by destruct (last ts). }
    rewrite Hlast in HT.
    simpl deliver. rewrite (IH (mutation t' s) t' (next_handle s)) by done.
    rewrite Hruns'. simpl settled_runs. rewrite (assoc_L (++)). f_equal.
    case_decide.
    + by destruct (advance_due t' s handle (t + 200) Hs) as [_ ->]; [lia|].
    + destruct (advance_not_due t' s handle (t + 200) Hs) as [_ ->]; [lia|].
      by rewrite app_nil_r.
Qed.

(** X15.  In any state the watcher can reach, with the observer
    connected, mutations in the order of time, none at the very time
    the timer of the one before is due, give one run of
    [setFolderStyling] for every mutation that is not followed by
    another within 200ms, 200ms after it, and no other run. *)
Theorem runs_of_spaced_mutations s t0 ts T :
  observing s = true →
  at_most_one_pending s →
  now s ≤ t0 →
  spaced_from t0 ts = true →
  default t0 (last ts) + 200 ≤ T →
  runs (advance T (deliver (t0 :: ts) s))
  = runs (advance t0 s) ++ settled_runs t0 ts.
Proof.
  intros Hobs Hinv Hnow Hspaced HT.
  destruct (mutation_arms s t0 Hobs Hinv Hnow) as (Hs' & Hm' & Hnow' & Hobs' & Hruns').
  change (deliver (t0 :: ts) s) with (deliver ts (mutation t0 s)).
  rewrite (deliver_spaced ts (mutation t0 s) t0 (next_handle s)) by done.
  by rewrite Hruns'.
Qed.

End DebounceFacts.

(** ** Folder suggestions *)

Module FolderSuggestFacts.
Import Js FolderSuggest.

Lemma startsWith_spec s p : startsWith s p = true ↔ ∃ post, s = p +:+ post.
Proof.
  revert s. induction p as [|a p IH]; intros s.
  - split; [|by destruct s]. intros _. by exists s.
  - destruct s as [|b s]; cbn [startsWith].
    + split; [done|]. by intros [post ?].
    + destruct (Ascii.eqb a b) eqn:Hab.
      * apply Ascii.eqb_eq in Hab as ->. rewrite IH. split.
        -- intros [post ->]. by exists post.
        -- intros [post Heq]. exists post.
           change (String b p +:+ post) with (String b (p +:+ post)) in Heq.
           by injection Heq.
      * split; [done|]. intros [post Heq].
        change (String a p +:+ post) with (String a (p +:+ post)) in Heq.
        injection Heq as -> _. by rewrite Ascii.eqb_refl in Hab.
Qed.

(** [includes] is the occurrence of one string in another. *)
Lemma includes_spec s p : includes s p = true ↔ ∃ pre post, s = pre +:+ p +:+ post.
Proof.
  induction s as [|c s IH]; cbn [includes].
  - rewrite orb_false_r, startsWith_spec. split.
    + intros [post ->]. by exists "", post.
    + intros (pre & post & Heq). destruct pre; [by exists post|done].
  - rewrite orb_true_iff, startsWith_spec, IH. split.
    + intros [[post ->]|(pre & post & ->)].
      * by exists "", post.
      * by exists (String c pre), post.
    + intros (pre & post & Heq). destruct pre as [|c' pre].
      * left. by exists post.
      * right. exists pre, post.
        change (String c' pre +:+ p +:+ post) with (String c' (pre +:+ p +:+ post)) in Heq.
        by injection Heq.
Qed.

Lemma append_assoc a b c : a +:+ (b +:+ c) = (a +:+ b) +:+ c.
Proof.
  induction a as [|x a IH]; [done|].
  change (String x a +:+ (b +:+ c)) with (String x (a +:+ (b +:+ c))).
  by rewrite IH.
Qed.

Lemma lower_char_again c : lower_char (lower_char c) = lower_char c.
Proof. destruct c as [[] [] [] [] [] [] [] []]; by vm_compute. Qed.

Lemma toLowerCase_again s : toLowerCase (toLowerCase s) = toLowerCase s.
Proof.
  induction s as [|c s IH]; [done|]. cbn [toLowerCase].
  by rewrite lower_char_again, IH.
Qed.

Lemma includes_empty s : includes s "" = true.
Proof. by destruct s. Qed.

Lemma getSuggestions_empty folders : getSuggestions folders "" = folders.
Proof.
  unfold getSuggestions. simpl toLowerCase.
  induction folders as [|folder rest IH]; [done|].
  rewrite filter_cons_True by (by rewrite includes_empty). by rewrite IH.
Qed.

(** X16.  The suggestions are the folders whose path, in lower case,
    has the input, in lower case, somewhere in it; they come in the
    order of the folders. *)
Theorem getSuggestions_spec folders inputStr folder :
  (folder ∈ getSuggestions folders inputStr ↔
   folder ∈ folders ∧
   ∃ pre post, toLowerCase folder = pre +:+ toLowerCase inputStr +:+ post) ∧
  getSuggestions folders inputStr `sublist_of` folders.
Proof.
  unfold getSuggestions. split; [|apply sublist_filter].
  rewrite list_elem_of_filter, <-includes_spec, Is_true_true. tauto.
Qed.

(** X17.  Typing more does not bring a folder back while the earlier
    input, in lower case, still occurs in the new one, in lower case:
    the suggestions for the new input are then among the suggestions
    for the earlier one, in the same order.  (That is so whenever the
    lower case of a string goes letter by letter; it is the hypothesis
    because [toLowerCase] need not, as for a capital sigma, which is
    written differently at the end of a word.) *)
Theorem longer_input_narrows folders shorter longer :
  includes (toLowerCase longer) (toLowerCase shorter) = true →
  getSuggestions folders longer `sublist_of` getSuggestions folders shorter.
Proof.
  intros Hoccurs. apply includes_spec in Hoccurs as (pre & post & Hlonger).
  unfold getSuggestions.
  set (P := λ folder : string, Is_true (includes (toLowerCase folder) (toLowerCase shorter))).
  set (Q := λ folder : string, Is_true (includes (toLowerCase folder) (toLowerCase longer))).
  assert (filter Q folders = filter Q (filter P folders)) as ->.
  { induction folders as [|folder rest IH]; [done|].
    destruct (decide (Q folder)) as [HQ|HQ].
    - assert (P folder) as HP.
      { unfold P, Q in *. apply Is_true_true. apply Is_true_true in HQ.
        apply includes_spec in HQ as (a & b & Heq). apply includes_spec.
        exists (a +:+ pre), (post +:+ b).
        rewrite Heq, Hlonger. by rewrite <-!append_assoc. }
      rewrite (filter_cons_True P) by done.
      rewrite !(filter_cons_True Q) by done. by rewrite IH.
    - rewrite (filter_cons_False Q) by done.
      destruct (decide (P folder)).
      + rewrite (filter_cons_True P) by done.
        by rewrite (filter_cons_False Q) by done.
      + by rewrite (filter_cons_False P) by done. }
  apply sublist_filter.
Qed.

(** X18.  The empty input suggests every folder, the root first; the
    root is suggested for the input [/]; and the case of the input does
    not count. *)
Theorem suggestions_for_any_case all_folder_paths folders inputStr :
  getSuggestions (folders_of all_folder_paths) "" = "/" :: all_folder_paths ∧
  head (getSuggestions (folders_of all_folder_paths) "/") = Some "/" ∧
  getSuggestions folders (toLowerCase inputStr) = getSuggestions folders inputStr.
Proof.
  split_and!.
  - by rewrite getSuggestions_empty.
  - done.
  - unfold getSuggestions. by rewrite toLowerCase_again.
Qed.

End FolderSuggestFacts.

(** ** The properties on sample data *)

Module SampleFacts.
Import Js Dom Settings ColorScheme FolderStyling FolderReset Lifecycle FolderSuggest.
Import Examples LifecycleExamples.
Import FolderResetFacts FolderStylingMore SettingsMore LifecycleFacts.
Import DebounceFacts FolderSuggestFacts.






(** A styled tree item loses the classes of the plugin and keeps the
    others in their order. *)
Lemma resetFolderStyling_effect_witness :
  ∃ e', resetFolderStyling [styled_item] !! 0 = Some e' ∧
        classList e' = ["tree-item"; "nav-folder"].
Proof.
  destruct (resetFolderStyling_effect [styled_item]) as (_ & _ & Hitems).
  destruct (Hitems 0 styled_item eq_refl) as (e' & He' & _ & _ & _ & Hclasses & _).
  exists e'. split; [exact He'|].
  rewrite Hclasses; [reflexivity|]. apply (bool_decide_unpack _). reflexivity.
Defined.


(** The folder [a] of the legacy explorer keeps its class. *)
Lemma class_outside_tree_item_survives_reset_witness :
  ∃ e', resetFolderStyling
          (@setFolderStyling codeunit_host (sample_vault ["a"] []) no_sub_folders
             legacy_document).1 !! 1 = Some e' ∧
        "rcs-item-1" ∈ classList e'.
Proof.
  apply (@class_outside_tree_item_survives_reset codeunit_host (sample_vault ["a"] [])
           no_sub_folders legacy_document ["a"] 0 "a" 1
           (Element (Some 0) ∅ ["nav-folder"] ∅)).
  - reflexivity.
  - reflexivity.
  - apply (bool_decide_unpack _). reflexivity.
  - reflexivity.
  - apply (bool_decide_unpack _). reflexivity.
Defined.

(** The folder [a] is deleted between two runs: [b], second in the
    first run and first in the second, has both classes. *)
Lemma earlier_class_stays_witness :
  ∃ e', (@setFolderStyling codeunit_host (sample_vault ["b"] []) sample_settings
           (@setFolderStyling codeunit_host (sample_vault ["a"; "b"] ["a/x"; "a/y"])
              sample_settings sample_document).1).1 !! 8 = Some e' ∧
        "rcs-item-2" ∈ classList e' ∧
        "rcs-item-1" ∈ classList e'.
Proof.
  apply (@earlier_class_stays codeunit_host (sample_vault ["a"; "b"] ["a/x"; "a/y"])
           (sample_vault ["b"] []) sample_settings sample_settings sample_document
           ["a"; "b"] ["b"] 1 0 "b" 8);
    first [reflexivity | apply (bool_decide_unpack _); reflexivity].
Defined.


(** The sample vault has no folder [c]: the group of [b] after it is
    not styled. *)
Lemma rejected_listing_ends_the_loop_witness :
  @style_sub_folders codeunit_host (sample_vault ["a"; "b"] ["a/x"; "a/y"])
    (["a"] ++ "c" :: ["b"]) (style_top 0 ["a"; "b"] sample_document)
  = ((@style_sub_folders codeunit_host (sample_vault ["a"; "b"] ["a/x"; "a/y"]) ["a"]
        (style_top 0 ["a"; "b"] sample_document)).1, false).
Proof.
  apply (@rejected_listing_ends_the_loop codeunit_host
           (sample_vault ["a"; "b"] ["a/x"; "a/y"]) ["a"] "c" ["b"]
           (style_top 0 ["a"; "b"] sample_document)); reflexivity.
Defined.

(** A group below a folder that has the last class. *)
Lemma sub_group_indices_cycle_witness :
  ∃ k, (1 ≤ k ≤ 16)%Z ∧
       @sub_class_token codeunit_host (new_rcs_index "rcs-item-16") 0 = rcs_item k ∧
       @sub_class_token codeunit_host (new_rcs_index "rcs-item-16") (0 + 1)
         = rcs_item (k mod 16 + 1) ∧
       @sub_class_token codeunit_host (new_rcs_index "rcs-item-16") (0 + 16)
         = @sub_class_token codeunit_host (new_rcs_index "rcs-item-16") 0.
Proof.
  apply (@sub_group_indices_cycle codeunit_host "rcs-item-16" 0).
  apply (bool_decide_unpack _). reflexivity.
Defined.

(** A path two levels below [a]. *)
Lemma group_start_of_nested_path_witness :
  group_parent_token (style_top 0 ["a"; "b"] sample_document) ("a" +:+ "/" +:+ "x/deep")
  = group_parent_token (style_top 0 ["a"; "b"] sample_document) "a".
Proof.
  apply (group_start_of_nested_path (style_top 0 ["a"; "b"] sample_document) "a" "x/deep").
  reflexivity.
Defined.

(** An object with the three fields, saved and loaded. *)
Lemma saved_settings_load_back_witness :
  loadSettings (Some (JObject (map_to_list stored_object))) = stored_object.
Proof.
  destruct (saved_settings_load_back stored_object None DEFAULT_SETTINGS) as [Hback _].
  apply Hback.
  - intros k Hk. apply (list_elem_of_lookup_1 _) in Hk as [i Hi].
    destruct i as [|[|[|i]]]; simpl in Hi; [| | |done]; injection Hi as <-;
      eexists; reflexivity.
  - reflexivity.
Defined.



(** The sample plugin with a scheme the sample table has not. *)
Lemma unknown_scheme_stops_the_plugin_witness :
  @boot sample_color_host codeunit_host (sample_vault ["a"; "b"] [])
    (with_settings unknown_scheme sample_plugin)
  = (with_settings unknown_scheme sample_plugin, false).
Proof.
  destruct (@unknown_scheme_stops_the_plugin sample_color_host codeunit_host
              (sample_vault ["a"; "b"] []) (with_settings unknown_scheme sample_plugin))
    as (Hboot & _).
  - reflexivity.
  - exact Hboot.
Defined.


(** From three colours to one: the third variable stays. *)
Lemma shorter_scheme_leaves_variables_witness :
  style sample_short_root !! rcs_color 3 = Some "#ffe119" ∧
  style (removeAttribute "data-rcs-a11y"
           (forEach_removeProperty 0 ["#111111"] sample_short_root)) !! rcs_color 3
  = Some "#ffe119".
Proof.
  destruct (@shorter_scheme_leaves_variables two_scheme_host DEFAULT_SETTINGS short_scheme
              ["#e6194b"; "#3cb44b"; "#ffe119"] ["#111111"]
              sample_root sample_restyled_root sample_short_root 3)
    as (_ & Hroot & Hunloaded).
  - reflexivity.
  - reflexivity.
  - repeat first [apply Forall_nil_2 | apply Forall_cons_2 | split]; done.
  - by vm_compute.
  - by vm_compute.
  - simpl. lia.
  - split; [exact Hroot|exact Hunloaded].
Defined.

(** The tree changes at 100 and the plugin is unloaded: one run, at
    300. *)
Lemma pending_run_survives_onunload_witness :
  Observer.runs
    (watcher (@pass_time codeunit_host (sample_vault ["a"; "b"] []) 300
                (@onunload sample_color_host
                   (@tree_mutation codeunit_host (sample_vault ["a"; "b"] []) 100
                      watching_plugin)).1))
  = [300%Z].
Proof.
  pose proof (@pending_run_survives_onunload sample_color_host codeunit_host
                (sample_vault ["a"; "b"] []) watching_plugin 100 300 500
                eq_refl eq_refl (or_introl eq_refl)
                ltac:(simpl; lia) ltac:(lia)) as Hlater.
  cbv zeta in Hlater. destruct Hlater as (_ & Hruns & _). exact Hruns.
Defined.

(** Four mutations after loading: the second and the fourth are not
    followed by another within the delay. *)
Lemma runs_of_spaced_mutations_witness :
  Observer.runs
    (Observer.advance 1000
       (Observer.deliver [100; 250; 600; 700]%Z
          (Observer.registerFileTreeObserver true (Observer.initial 0))))
  = [450; 900]%Z.
Proof.
  apply (runs_of_spaced_mutations
           (Observer.registerFileTreeObserver true (Observer.initial 0))
           100 [250; 600; 700]%Z 1000).
  - reflexivity.
  - by left.
  - simpl. lia.
  - reflexivity.
  - simpl. lia.
Defined.

(** The input in capitals finds the folder in small letters. *)
Lemma getSuggestions_spec_witness :
  "notes/Daily" ∈ getSuggestions ["/"; "Work"; "notes/Daily"] "NOTE".
Proof.
  apply (proj2 (proj1 (getSuggestions_spec ["/"; "Work"; "notes/Daily"] "NOTE"
                         "notes/Daily"))).
  split.
  - apply (bool_decide_unpack _). reflexivity.
  - by exists "", "s/daily".
Defined.

(** From [NOT] to [note]: nothing new is suggested. *)
Lemma longer_input_narrows_witness :
  getSuggestions ["/"; "Work"; "notes/Daily"; "Notary"] "note"
    `sublist_of` getSuggestions ["/"; "Work"; "notes/Daily"; "Notary"] "NOT".
Proof.
  apply (longer_input_narrows ["/"; "Work"; "notes/Daily"; "Notary"] "NOT" "note").
  reflexivity.
Defined.


End SampleFacts.
